(** * AVS-auth-server: the device registration and token state machine

    A shallow embedding of [authentication.js], the module behind
    [/device/regcode], [/device/register], [/authresponse] and
    [/device/accesstoken], followed by the properties of its pending
    registration store and of the four public operations.

    Modelling conventions.
    - The five module-level collections ([pendingStateToRegCode],
      [pendingRegCodeToDevice], [pendingDeviceToRegCode], [deviceInformation],
      [pendingRegistrationQueue]) and [intervalTimer] form one record [State];
      every function takes the state and returns the new one.
    - A plain JS object used as a dictionary is a [gmap string _]: [k in obj]
      and [obj[k]] are own-property lookups.  The keys the module stores are
      hex strings and [product:dsn] strings, none of which is the name of a
      property inherited from [Object.prototype]; a request that names such
      a property (a product called [constructor], say) is outside the model.
    - Request parameters are strings.
    - [new Date().getTime()] is an extra argument [curtime : Z] (milliseconds
      since the epoch); [crypto.randomBytes] reads a [RandomSource] argument.
    - A callback invocation is returned as a value; an asynchronous HTTPS
      exchange is split into the synchronous part, which returns the request
      it sends, and the response handler, a function of its own that runs on
      the state current when the response arrives.
    - [console.log] output is not part of the model. *)

From Stdlib Require Import ZArith String Ascii List Lia.
From Stdlib.Strings Require Import Byte.
From stdpp Require Import gmap strings list fin_maps pretty.

Local Open Scope string_scope.
Local Open Scope Z_scope.

(** ** JavaScript values and the few coercions the module relies on *)

Module Js.

(** The values that reach a numeric operator in the module: [undefined], a
    number, or a plain object. *)
Inductive value :=
| Undefined
| Number (z : Z)
| Object.

(** Result of a numeric coercion: a number or NaN.  The numbers the module
    computes with are millisecond timestamps and small constants, exact in
    a double. *)
Inductive number :=
| NaN
| Num (z : Z).

(** [ToNumber]: [undefined] and a plain object (through its string
    ["[object Object]"]) both give NaN. *)
Definition ToNumber (v : value) : number :=
  match v with
  | Undefined => NaN
  | Number z => Num z
  | Object => NaN
  end.

(** [a - b] *)
Definition sub (a b : number) : number :=
  match a, b with
  | Num x, Num y => Num (x - y)
  | _, _ => NaN
  end.

(** [a < b]: false as soon as one side is NaN. *)
Definition lt (a b : number) : bool :=
  match a, b with
  | Num x, Num y => x <? y
  | _, _ => false
  end.

(** [a >= b]: false as soon as one side is NaN. *)
Definition ge (a b : number) : bool :=
  match a, b with
  | Num x, Num y => y <=? x
  | _, _ => false
  end.

(** [v === n] for a number literal [n]. *)
Definition strict_eq_number (v : value) (n : Z) : bool :=
  match v with
  | Number z => z =? n
  | _ => false
  end.

(** Truthiness of a string-or-undefined property value. *)
Definition truthy_string (v : option string) : bool :=
  match v with
  | Some s => negb (String.eqb s "")
  | None => false
  end.

(** Property-key conversion of a value that is a string or [undefined]:
    [obj[undefined]] reads the property named ["undefined"]. *)
Definition property_key (v : option string) : string :=
  match v with
  | Some s => s
  | None => "undefined"
  end.

(** Exceptions raised by the runtime inside a handler. *)
Inductive exception :=
| TypeError
| ReferenceError
| SyntaxError.

End Js.

(** ** Values read from a parsed JSON body *)

Module Json.

(** A property of the parsed body: missing ([undefined]), [null], an
    integer, a string, or any other value.  The module stores and forwards
    these values and never computes with them. *)
Inductive value :=
| Undefined
| Null
| Number (z : Z)
| Str (s : string)
| Other.

End Json.

(** ** Constants *)

Definition MAX_REG_SECONDS : Z := 900.
Definition MIN_POLL_RATE : Z := 1000.
Definition MAX_PENDING_REG : Z := 50000.
Definition EXPIRE_CHECK_INTERVAL : Z := 5000.

Definition PRODUCT_MAX_LENGTH : nat := 384.
Definition PRODUCT_MIN_LENGTH : nat := 1.
Definition DSN_MIN_LENGTH : nat := 1.

Definition STATE_NUM_BYTES : nat := 32.
Definition REG_NUM_BYTES : nat := 12.

(** ** Configuration ([config/config.json], read once at start-up) *)

Record Config := {
  clientId : string;
  clientSecret : string;
  redirectUrl : string;
  (** product => list of the serial numbers allowed for it *)
  products : gmap string (list string)
}.

(** ** Errors *)

Record Error := {
  name : string;
  message : string;
  status : Z
}.

Definition error (name : string) (msg : string) (status : Z) : Error :=
  {| name := name; message := msg; status := status |}.

(** ** Stored records *)

Module RegInfo.
(** Value of [pendingRegCodeToDevice].  [lastCall] is not set when the
    record is created: it is [None] (the property is absent) until the
    first poll assigns it. *)
Record t := {
  product : string;
  dsn : string;
  deviceSecret : string;
  expires : Z;
  lastCall : option Z
}.

Definition get_lastCall (r : t) : Js.value :=
  match lastCall r with
  | Some n => Js.Number n
  | None => Js.Undefined
  end.

Definition set_lastCall (n : Z) (r : t) : t :=
  {| product := product r; dsn := dsn r; deviceSecret := deviceSecret r;
     expires := expires r; lastCall := Some n |}.
End RegInfo.

Module Tokens.
Record t := {
  access : Json.value;
  refresh : Json.value;
  expires : Json.value
}.
End Tokens.

Module DeviceInfo.
(** Value of [deviceInformation]. *)
Record t := {
  deviceSecret : string;
  tokens : Tokens.t
}.
End DeviceInfo.

(** ** The module state *)

Record State := {
  (** stateCode => regCode *)
  pendingStateToRegCode : gmap string string;
  (** regCode => registration *)
  pendingRegCodeToDevice : gmap string RegInfo.t;
  (** product:dsn => regCode *)
  pendingDeviceToRegCode : gmap string string;
  (** product:dsn => device record *)
  deviceInformation : gmap string DeviceInfo.t;
  (** queue of regCodes, oldest first *)
  pendingRegistrationQueue : list string;
  (** [false] is [null]; [true] once [setInterval] has been called *)
  intervalTimer : bool
}.

Definition initial : State :=
  {| pendingStateToRegCode := ∅;
     pendingRegCodeToDevice := ∅;
     pendingDeviceToRegCode := ∅;
     deviceInformation := ∅;
     pendingRegistrationQueue := [];
     intervalTimer := false |}.

Definition set_pendingStateToRegCode (m : gmap string string) (s : State) : State :=
  {| pendingStateToRegCode := m;
     pendingRegCodeToDevice := pendingRegCodeToDevice s;
     pendingDeviceToRegCode := pendingDeviceToRegCode s;
     deviceInformation := deviceInformation s;
     pendingRegistrationQueue := pendingRegistrationQueue s;
     intervalTimer := intervalTimer s |}.

Definition set_pendingRegCodeToDevice (m : gmap string RegInfo.t) (s : State) : State :=
  {| pendingStateToRegCode := pendingStateToRegCode s;
     pendingRegCodeToDevice := m;
     pendingDeviceToRegCode := pendingDeviceToRegCode s;
     deviceInformation := deviceInformation s;
     pendingRegistrationQueue := pendingRegistrationQueue s;
     intervalTimer := intervalTimer s |}.

Definition set_pendingDeviceToRegCode (m : gmap string string) (s : State) : State :=
  {| pendingStateToRegCode := pendingStateToRegCode s;
     pendingRegCodeToDevice := pendingRegCodeToDevice s;
     pendingDeviceToRegCode := m;
     deviceInformation := deviceInformation s;
     pendingRegistrationQueue := pendingRegistrationQueue s;
     intervalTimer := intervalTimer s |}.

Definition set_deviceInformation (m : gmap string DeviceInfo.t) (s : State) : State :=
  {| pendingStateToRegCode := pendingStateToRegCode s;
     pendingRegCodeToDevice := pendingRegCodeToDevice s;
     pendingDeviceToRegCode := pendingDeviceToRegCode s;
     deviceInformation := m;
     pendingRegistrationQueue := pendingRegistrationQueue s;
     intervalTimer := intervalTimer s |}.

Definition set_pendingRegistrationQueue (q : list string) (s : State) : State :=
  {| pendingStateToRegCode := pendingStateToRegCode s;
     pendingRegCodeToDevice := pendingRegCodeToDevice s;
     pendingDeviceToRegCode := pendingDeviceToRegCode s;
     deviceInformation := deviceInformation s;
     pendingRegistrationQueue := q;
     intervalTimer := intervalTimer s |}.

Definition set_intervalTimer (b : bool) (s : State) : State :=
  {| pendingStateToRegCode := pendingStateToRegCode s;
     pendingRegCodeToDevice := pendingRegCodeToDevice s;
     pendingDeviceToRegCode := pendingDeviceToRegCode s;
     deviceInformation := deviceInformation s;
     pendingRegistrationQueue := pendingRegistrationQueue s;
     intervalTimer := b |}.

(** [product + ':' + dsn] *)
Definition productDsn (product dsn : string) : string :=
  product ++ ":" ++ dsn.

(** ** Random identifiers *)

(** What [crypto.randomBytes] has to offer when it is called: an error, or
    a stream of bytes of which the call takes as many as it asks for. *)
Inductive RandomSource :=
| RandomFailure
| Entropy (bytes : nat -> byte).

(** [crypto.randomBytes(n, cb)]: [None] is [cb(err)], [Some buf] is
    [cb(null, buf)] with [buf] of [n] bytes. *)
Definition randomBytes (n : nat) (src : RandomSource) : option (list byte) :=
  match src with
  | RandomFailure => None
  | Entropy bytes => Some (map bytes (seq 0 n))
  end.

Definition hexDigit (n : N) : ascii :=
  match n with
  | 0%N => "0" | 1%N => "1" | 2%N => "2" | 3%N => "3"
  | 4%N => "4" | 5%N => "5" | 6%N => "6" | 7%N => "7"
  | 8%N => "8" | 9%N => "9" | 10%N => "a" | 11%N => "b"
  | 12%N => "c" | 13%N => "d" | 14%N => "e" | _ => "f"
  end%char.

(** [buf.toString('hex')] *)
Fixpoint toHex (buf : list byte) : string :=
  match buf with
  | [] => ""
  | b :: rest =>
      String (hexDigit (Byte.to_N b / 16))
        (String (hexDigit (Byte.to_N b mod 16)) (toHex rest))
  end.

(** ** Device validation *)

(** [Array.prototype.indexOf] on an array of strings: the first index holding
    [x], or -1. *)
Fixpoint indexOf (x : string) (l : list string) : Z :=
  match l with
  | [] => -1
  | y :: rest =>
      if String.eqb y x then 0
      else let i := indexOf x rest in
           if i <? 0 then -1 else i + 1
  end.

Definition isValidDevice (config : Config) (product dsn : string) : bool :=
  (PRODUCT_MIN_LENGTH <=? String.length product)%nat &&
  (String.length product <=? PRODUCT_MAX_LENGTH)%nat &&
  (DSN_MIN_LENGTH <=? String.length dsn)%nat &&
  match products config !! product with
  | Some serials => 0 <=? indexOf dsn serials
  | None => false
  end.

(** ** The pending registration store *)

(** Removes pending device information from the collections tracking its
    state.  The argument is the property key the caller's [regCode] converts
    to. *)
Definition removePendingDevice (regCode : string) (s : State) : State :=
  match pendingRegCodeToDevice s !! regCode with
  | Some info =>
      let dsn := RegInfo.dsn info in
      let product := RegInfo.product info in
      set_pendingDeviceToRegCode
        (delete (productDsn product dsn) (pendingDeviceToRegCode s))
        (set_pendingRegCodeToDevice
           (delete regCode (pendingRegCodeToDevice s)) s)
  | None => s
  end.

(** [pendingRegistrationQueue.shift()] *)
Definition shift (s : State) : State :=
  set_pendingRegistrationQueue (tail (pendingRegistrationQueue s)) s.

(** The [while] loop of [checkExpire].  [queue] is the content of
    [pendingRegistrationQueue] when the iteration starts; every iteration
    that does not [break] shifts the head away, so the recursion is on the
    tail. *)
Fixpoint checkExpire_loop (curtime : Z) (queue : list string) (s : State) : State :=
  match queue with
  | [] => s
  | regCode :: rest =>
      match pendingRegCodeToDevice s !! regCode with
      | Some info =>
          if curtime >? RegInfo.expires info
          then checkExpire_loop curtime rest (shift (removePendingDevice regCode s))
          else s
      | None => checkExpire_loop curtime rest (shift s)
      end
  end.

Definition checkExpire (curtime : Z) (s : State) : State :=
  checkExpire_loop curtime (pendingRegistrationQueue s) s.

(** [pendingRegCodeToDevice.length]: the object is a dictionary, not an
    array; the property is [undefined] unless a registration is stored under
    the key ["length"], and then it is that registration object. *)
Definition length_property (m : gmap string RegInfo.t) : Js.value :=
  match m !! "length" with
  | Some _ => Js.Object
  | None => Js.Undefined
  end.

Definition addPendingRegistration (regCode deviceSecret product dsn : string)
    (curtime : Z) (s : State) : option Error * State :=
  if Js.ge (Js.ToNumber (length_property (pendingRegCodeToDevice s)))
           (Js.Num MAX_PENDING_REG)
  then (Some (error "Throttle" "Try again later" 503), s)
  else
    match pendingDeviceToRegCode s !! productDsn product dsn with
    | None =>
        let expires := curtime + 1000 * MAX_REG_SECONDS in
        let info := {| RegInfo.product := product;
                       RegInfo.dsn := dsn;
                       RegInfo.deviceSecret := deviceSecret;
                       RegInfo.expires := expires;
                       RegInfo.lastCall := None |} in
        (None,
         {| pendingStateToRegCode := pendingStateToRegCode s;
            pendingRegCodeToDevice := <[regCode := info]> (pendingRegCodeToDevice s);
            pendingDeviceToRegCode :=
              <[productDsn product dsn := regCode]> (pendingDeviceToRegCode s);
            deviceInformation := deviceInformation s;
            pendingRegistrationQueue := pendingRegistrationQueue s ++ [regCode];
            intervalTimer := true |})
    | Some _ =>
        (Some (error "PendingRegistration"
                 "This device already has a registration pending" 403), s)
    end.

(** ** auth.getRegCode *)

Module RegCodeReply.
(** [{ regCode, deviceSecret, expires }] on success, [{ regCode }] when the
    registration was refused. *)
Record t := {
  regCode : string;
  deviceSecret : option string;
  expires : option Z
}.
End RegCodeReply.

Definition getRegCode (config : Config) (product dsn : string)
    (rnd1 rnd2 : RandomSource) (curtime : Z) (s : State)
    : (option Error * option RegCodeReply.t) * State :=
  if negb (isValidDevice config product dsn) then
    ((Some (error "BadRequest"
              "The provided product and dsn do not match valid values" 400),
      None), s)
  else
    match randomBytes REG_NUM_BYTES rnd1 with
    | None => ((Some (error "InternalError" "Failure generating code" 500), None), s)
    | Some regCodeBuffer =>
        match randomBytes REG_NUM_BYTES rnd2 with
        | None => ((Some (error "InternalError" "Failure generating code" 500), None), s)
        | Some deviceSecretBuffer =>
            let regCode := toHex regCodeBuffer in
            let deviceSecret := toHex deviceSecretBuffer in
            let '(registrationError, s') :=
              addPendingRegistration regCode deviceSecret product dsn curtime s in
            match registrationError with
            | None =>
                ((None,
                  Some {| RegCodeReply.regCode := regCode;
                          RegCodeReply.deviceSecret := Some deviceSecret;
                          RegCodeReply.expires :=
                            RegInfo.expires <$> (pendingRegCodeToDevice s' !! regCode) |}),
                 s')
            | Some e =>
                ((Some e,
                  Some {| RegCodeReply.regCode := regCode;
                          RegCodeReply.deviceSecret := None;
                          RegCodeReply.expires := None |}),
                 s')
            end
        end
    end.

(** ** auth.register *)

Inductive RegisterOutcome :=
(** [callback(err)] *)
| RegisterCallback (err : Error)
(** [next(err)] from [redirectToDeviceAuthenticate] *)
| RegisterNext (err : Error)
(** 302 to the login page; the [Location] carries the [state] and, in
    [scope_data], the product and serial number. *)
| RegisterRedirect (state : string) (productID deviceSerialNumber : string).

Definition redirectToDeviceAuthenticate (deviceInfo : RegInfo.t) (regCode : string)
    (rnd : RandomSource) (s : State) : RegisterOutcome * State :=
  match randomBytes STATE_NUM_BYTES rnd with
  | None => (RegisterNext (error "InternalError" "Unknown failure" 500), s)
  | Some buf =>
      let state := toHex buf in
      (RegisterRedirect state (RegInfo.product deviceInfo) (RegInfo.dsn deviceInfo),
       set_pendingStateToRegCode (<[state := regCode]> (pendingStateToRegCode s)) s)
  end.

Definition register (regCode : string) (rnd : RandomSource) (curtime : Z)
    (s : State) : RegisterOutcome * State :=
  let invalid :=
    (RegisterCallback
       (error "InvalidRegistrationCode" "Registration code is invalid" 401), s) in
  if negb (String.length regCode =? REG_NUM_BYTES * 2)%nat then invalid
  else
    match pendingRegCodeToDevice s !! regCode with
    | None => invalid
    | Some prodInfo =>
        if RegInfo.expires prodInfo >? curtime then
          redirectToDeviceAuthenticate prodInfo regCode rnd s
        else
          (RegisterCallback
             (error "ExpiredRegistrationCode" "Registration code expired" 401),
           removePendingDevice regCode s)
    end.

(** ** Token exchange with the identity provider *)

(** The form-encoded grant written to [/auth/o2/token], by its fields. *)
Inductive Grant :=
| AuthorizationCodeGrant (code redirect_uri client_id client_secret : string)
| RefreshTokenGrant (refresh_token : Json.value) (client_id client_secret : string).

(** A response as the handlers see it: the status code and the ['data']
    chunks that arrive before ['end']. *)
Record HttpResponse := {
  statusCode : Z;
  chunks : list string
}.

Module Lwa.
(** The three properties read from the parsed body; a property the body
    does not have reads as [Json.Undefined]. *)
Record result := {
  access_token : Json.value;
  refresh_token : Json.value;
  expires_in : Json.value
}.

(** What [JSON.parse(resultBuffer)] does: throw a [SyntaxError], return
    [null], or return a value whose properties can be read. *)
Inductive parsed :=
| Throws
| IsNull
| Value (r : result).
End Lwa.

(** Callbacks a handler has made, oldest first, and the exception that ended
    it, if any. *)
Record Handled (A : Type) := {
  callbacks : list (option Error * option A);
  thrown : option Js.exception
}.
Arguments callbacks {A} _.
Arguments thrown {A} _.

Definition tokenRetrievalFailure (statusCode : Z) : Error :=
  error "TokenRetrievalFailure" "Unexpected failure while retrieving tokens." statusCode.

(** The ['data'] handler over all chunks: the value of [resultBuffer] at
    ['end'] and the callbacks made on the way. *)
Definition onData {A : Type} (res : HttpResponse)
    : option string * list (option Error * option A) :=
  if statusCode res =? 200 then
    (match chunks res with
     | [] => None
     | _ => Some (String.concat "" (chunks res))
     end, [])
  else
    (None, map (fun _ => (Some (tokenRetrievalFailure (statusCode res)), None)) (chunks res)).

(** ** auth.retrieveTokens *)

Inductive RetrieveOutcome :=
(** [callback(err)] *)
| RetrieveCallback (err : Error)
(** the authorization-code grant is posted; the response handler keeps
    [regCode] *)
| RetrieveRequest (regCode : option string) (reqGrant : Grant).

Definition retrieveTokens (config : Config) (authcode stateCode : string)
    (curtime : Z) (s : State) : RetrieveOutcome * State :=
  if negb (String.length stateCode =? STATE_NUM_BYTES * 2)%nat
     || Js.truthy_string (pendingStateToRegCode s !! stateCode)
  then
    let regCode := pendingStateToRegCode s !! stateCode in
    let s1 := set_pendingStateToRegCode (delete stateCode (pendingStateToRegCode s)) s in
    let expired :=
      (RetrieveCallback (error "ExpiredRegistrationCode" "Registration code expired" 401),
       removePendingDevice (Js.property_key regCode) s1) in
    match pendingRegCodeToDevice s1 !! Js.property_key regCode with
    | Some info =>
        if RegInfo.expires info >? curtime then
          (RetrieveRequest regCode
             (AuthorizationCodeGrant authcode (redirectUrl config)
                (clientId config) (clientSecret config)),
           s1)
        else expired
    | None => expired
    end
  else
    (RetrieveCallback (error "InvalidState" "Invalid state" 401), s).

(** The response handlers of the request posted by [retrieveTokens]. *)
Definition retrieveTokens_response (JSON_parse : string -> Lwa.parsed)
    (regCode : option string) (res : HttpResponse) (s : State)
    : Handled string * State :=
  let '(resultBuffer, early) := onData res in
  match resultBuffer with
  | Some buffer =>
      match JSON_parse buffer with
      | Lwa.Throws =>
          ({| callbacks := early; thrown := Some Js.SyntaxError |}, s)
      | parsed =>
          match pendingRegCodeToDevice s !! Js.property_key regCode, parsed with
          | Some info, Lwa.Value result =>
              let product := RegInfo.product info in
              let dsn := RegInfo.dsn info in
              let deviceSecret := RegInfo.deviceSecret info in
              let record :=
                {| DeviceInfo.deviceSecret := deviceSecret;
                   DeviceInfo.tokens :=
                     {| Tokens.access := Lwa.access_token result;
                        Tokens.refresh := Lwa.refresh_token result;
                        Tokens.expires := Lwa.expires_in result |} |} in
              let s1 :=
                set_deviceInformation
                  (<[productDsn product dsn := record]> (deviceInformation s)) s in
              ({| callbacks := early ++ [(None, Some "device tokens ready")];
                  thrown := None |},
               removePendingDevice (Js.property_key regCode) s1)
          | _, _ =>
              (* [pendingRegCodeToDevice[regCode].product] on a registration
                 that is gone, or [result.access_token] on [null] *)
              ({| callbacks := early; thrown := Some Js.TypeError |}, s)
          end
      end
  | None =>
      ({| callbacks := early ++ [(Some (tokenRetrievalFailure (statusCode res)), None)];
          thrown := None |}, s)
  end.

(** The ['error'] handler of that request (a transport failure) only logs:
    no callback is made and the state is not touched. *)
Definition retrieveTokens_error : Handled string :=
  {| callbacks := []; thrown := None |}.

(** ** auth.getAccessToken *)

Inductive AccessReply :=
| PollStatus (poll_status : string)
| AccessToken (access expires : Json.value).

Inductive AccessOutcome :=
(** [callback(err, reply)] *)
| AccessCallback (err : option Error) (reply : option AccessReply)
(** the refresh-token grant is posted; the response handler keeps
    [productDsn] *)
| AccessRequest (key : string) (reqGrant : Grant)
(** the function ends in an exception *)
| AccessThrows (e : Js.exception).

Definition getAccessToken (config : Config) (product dsn deviceSecret : string)
    (curtime : Z) (s : State) : AccessOutcome * State :=
  if negb (isValidDevice config product dsn) then
    (AccessCallback
       (Some (error "BadRequest"
                "The provided product and dsn do not match valid values" 400))
       None, s)
  else
    let productDsn := productDsn product dsn in
    match pendingDeviceToRegCode s !! productDsn with
    | Some regCode =>
        match pendingRegCodeToDevice s !! regCode with
        | Some regInfo =>
            if RegInfo.expires regInfo >? curtime then
              if String.eqb (RegInfo.product regInfo) product
                 && String.eqb (RegInfo.dsn regInfo) dsn
              then
                let interval :=
                  if Js.strict_eq_number (RegInfo.get_lastCall regInfo) 0
                  then Js.Num (MIN_POLL_RATE + 1)
                  else Js.sub (Js.Num curtime)
                              (Js.ToNumber (RegInfo.get_lastCall regInfo)) in
                let s1 :=
                  set_pendingRegCodeToDevice
                    (<[regCode := RegInfo.set_lastCall curtime regInfo]>
                       (pendingRegCodeToDevice s)) s in
                let backoffStatus :=
                  if Js.lt interval (Js.Num MIN_POLL_RATE)
                  then "slowdown" else "waiting" in
                (AccessCallback None (Some (PollStatus backoffStatus)), s1)
              else
                (AccessCallback
                   (Some (error "InvalidProductInformation"
                            "The provided product and dsn do not match the provided deviceSecret."
                            401))
                   None, s)
            else
              (AccessCallback
                 (Some (error "ExpiredDeviceSecret"
                          "Registration was not completed in time for this deviceSecret. Please restart the process."
                          401))
                 None, s)
        | None =>
            (* [regInfo] is [undefined]: reading [regInfo.expires] throws *)
            (AccessThrows Js.TypeError, s)
        end
    | None =>
        let invalid :=
          (AccessCallback
             (Some (error "InvalidDeviceSecret"
                      "This deviceSecret is either invalid, or register was not completed in time for this deviceSecret. Please restart the process."
                      401))
             None, s) in
        match deviceInformation s !! productDsn with
        | Some info =>
            if (String.length deviceSecret =? REG_NUM_BYTES * 2)%nat
               && String.eqb (DeviceInfo.deviceSecret info) deviceSecret
            then
              (AccessRequest productDsn
                 (RefreshTokenGrant (Tokens.refresh (DeviceInfo.tokens info))
                    (clientId config) (clientSecret config)),
               s)
            else invalid
        | None => invalid
        end
    end.

(** The response handlers of the request posted by [getAccessToken].  On a
    response that is not a 200 with a body, the ['end'] handler reads the
    undeclared variable [data] before it reaches its callback. *)
Definition getAccessToken_response (JSON_parse : string -> Lwa.parsed)
    (productDsn : string) (res : HttpResponse) (s : State)
    : Handled AccessReply * State :=
  let '(resultBuffer, early) := onData res in
  match resultBuffer with
  | Some buffer =>
      match JSON_parse buffer with
      | Lwa.Throws =>
          ({| callbacks := early; thrown := Some Js.SyntaxError |}, s)
      | parsed =>
          match deviceInformation s !! productDsn, parsed with
          | Some info, Lwa.Value result =>
              let tokens :=
                {| Tokens.access := Lwa.access_token result;
                   Tokens.refresh := Tokens.refresh (DeviceInfo.tokens info);
                   Tokens.expires := Lwa.expires_in result |} in
              let record :=
                {| DeviceInfo.deviceSecret := DeviceInfo.deviceSecret info;
                   DeviceInfo.tokens := tokens |} in
              ({| callbacks :=
                    early ++ [(None, Some (AccessToken (Lwa.access_token result)
                                                       (Lwa.expires_in result)))];
                  thrown := None |},
               set_deviceInformation (<[productDsn := record]> (deviceInformation s)) s)
          | _, _ =>
              ({| callbacks := early; thrown := Some Js.TypeError |}, s)
          end
      end
  | None =>
      ({| callbacks := early; thrown := Some Js.ReferenceError |}, s)
  end.

(** The ['error'] handler of that request reports the failure with status
    500; the state is not touched. *)
Definition getAccessToken_error : Handled AccessReply :=
  {| callbacks := [(Some (tokenRetrievalFailure 500), None)]; thrown := None |}.

(** ** The module as a transition system *)

(** What can happen to the module: a call of one of the four public
    operations, the arrival of the response to a posted grant, or a tick of
    the expiry timer. *)
Inductive Event :=
| EvGetRegCode (product dsn : string) (rnd1 rnd2 : RandomSource) (curtime : Z)
| EvRegister (regCode : string) (rnd : RandomSource) (curtime : Z)
| EvRetrieveTokens (authcode stateCode : string) (curtime : Z)
| EvRetrieveTokensResponse (regCode : option string) (res : HttpResponse)
| EvGetAccessToken (product dsn deviceSecret : string) (curtime : Z)
| EvGetAccessTokenResponse (productDsn : string) (res : HttpResponse)
| EvCheckExpire (curtime : Z).

Definition step (config : Config) (JSON_parse : string -> Lwa.parsed)
    (ev : Event) (s : State) : State :=
  match ev with
  | EvGetRegCode product dsn rnd1 rnd2 curtime =>
      snd (getRegCode config product dsn rnd1 rnd2 curtime s)
  | EvRegister regCode rnd curtime =>
      snd (register regCode rnd curtime s)
  | EvRetrieveTokens authcode stateCode curtime =>
      snd (retrieveTokens config authcode stateCode curtime s)
  | EvRetrieveTokensResponse regCode res =>
      snd (retrieveTokens_response JSON_parse regCode res s)
  | EvGetAccessToken product dsn deviceSecret curtime =>
      snd (getAccessToken config product dsn deviceSecret curtime s)
  | EvGetAccessTokenResponse productDsn res =>
      snd (getAccessToken_response JSON_parse productDsn res s)
  | EvCheckExpire curtime =>
      if intervalTimer s then checkExpire curtime s else s
  end.

Definition run (config : Config) (JSON_parse : string -> Lwa.parsed)
    (evs : list Event) (s : State) : State :=
  fold_left (fun st ev => step config JSON_parse ev st) evs s.

(** States the module can be in. *)
Definition reachable (config : Config) (JSON_parse : string -> Lwa.parsed)
    (s : State) : Prop :=
  exists evs, s = run config JSON_parse evs initial.

(** ** Notions used to state the properties *)

(** The two pending maps are coupled: every stored registration is indexed,
    under its [product:dsn] key, by the code it is stored under. *)
Definition coupled (codes : gmap string RegInfo.t) (index : gmap string string) : Prop :=
  forall regCode info,
    codes !! regCode = Some info ->
    index !! productDsn (RegInfo.product info) (RegInfo.dsn info) = Some regCode.

Definition store_inv (s : State) : Prop :=
  coupled (pendingRegCodeToDevice s) (pendingDeviceToRegCode s).

(** A queued code the sweep pops: its registration is gone, or
    [curtime] has passed its expiry time. *)
Definition stale (curtime : Z) (codes : gmap string RegInfo.t) (regCode : string) : bool :=
  match codes !! regCode with
  | Some info => curtime >? RegInfo.expires info
  | None => true
  end.

(** Longest prefix of the queue made of codes satisfying [p], and what is
    left after it. *)
Fixpoint popped (p : string -> bool) (queue : list string) : list string :=
  match queue with
  | [] => []
  | regCode :: rest => if p regCode then regCode :: popped p rest else []
  end.

Fixpoint kept (p : string -> bool) (queue : list string) : list string :=
  match queue with
  | [] => []
  | regCode :: rest => if p regCode then kept p rest else queue
  end.

(** The clock reading an event makes, if it makes one. *)
Definition event_time (ev : Event) : option Z :=
  match ev with
  | EvGetRegCode _ _ _ _ curtime => Some curtime
  | EvRegister _ _ curtime => Some curtime
  | EvRetrieveTokens _ _ curtime => Some curtime
  | EvGetAccessToken _ _ _ curtime => Some curtime
  | EvCheckExpire curtime => Some curtime
  | EvRetrieveTokensResponse _ _ => None
  | EvGetAccessTokenResponse _ _ => None
  end.

(** No event of [evs] has read the clock later than [t]. *)
Definition clock_upto (t : Z) (evs : list Event) : Prop :=
  Forall (fun ev => forall u, event_time ev = Some u -> u <= t) evs.

(** [info] is the registration [info0], up to [lastCall]. *)
Definition same_registration (info0 info : RegInfo.t) : Prop :=
  RegInfo.product info = RegInfo.product info0 /\
  RegInfo.dsn info = RegInfo.dsn info0 /\
  RegInfo.deviceSecret info = RegInfo.deviceSecret info0 /\
  RegInfo.expires info = RegInfo.expires info0.

(** Every stored code has the length of a registration code. *)
Definition codes_shaped (codes : gmap string RegInfo.t) : Prop :=
  forall regCode info, codes !! regCode = Some info -> String.length regCode = 24%nat.

(** No stored registration expires later than [bound]. *)
Definition expires_upto (bound : Z) (codes : gmap string RegInfo.t) : Prop :=
  forall regCode info, codes !! regCode = Some info -> RegInfo.expires info <= bound.

(** The response carries a body that [JSON.parse] turns into [result]. *)
Definition token_response (JSON_parse : string -> Lwa.parsed)
    (res : HttpResponse) (result : Lwa.result) : Prop :=
  statusCode res = 200 /\ chunks res <> [] /\
  JSON_parse (String.concat "" (chunks res)) = Lwa.Value result.

(** The response makes the handlers report [TokenRetrievalFailure]. *)
Definition failure_response (res : HttpResponse) : Prop :=
  statusCode res <> 200 \/ chunks res = [].

(** ** Concrete scenarios *)

Definition example_config : Config :=
  {| clientId := "amzn1.application-oa2-client.0";
     clientSecret := "s3cr3t";
     redirectUrl := "https://localhost:3000/authresponse";
     products := {[ "speaker" := ["DSN1"; "DSN2"] ]} |}.

(** A parser for the stubbed token endpoint: every body is the object
    [{access_token:"A", refresh_token:"R", expires_in:3600}]. *)
Definition example_parse (body : string) : Lwa.parsed :=
  Lwa.Value {| Lwa.access_token := Json.Str "A";
               Lwa.refresh_token := Json.Str "R";
               Lwa.expires_in := Json.Number 3600 |}.

Definition entropy_a : RandomSource := Entropy (fun _ => "a"%byte).
Definition entropy_b : RandomSource := Entropy (fun _ => "b"%byte).
Definition entropy_c : RandomSource := Entropy (fun _ => "c"%byte).

(** [toHex] of twelve bytes "a", of twelve bytes "b", of 32 bytes "c". *)
Definition code_a : string := "616161616161616161616161".
Definition secret_b : string := "626262626262626262626262".
Definition state_c : string :=
  "6363636363636363636363636363636363636363636363636363636363636363".

(** [speaker:DSN1] has asked for a registration code at time 0. *)
Definition one_pending : State :=
  snd (getRegCode example_config "speaker" "DSN1" entropy_a entropy_b 0 initial).

(** The registration stored by that request. *)
Definition info_a : RegInfo.t :=
  {| RegInfo.product := "speaker";
     RegInfo.dsn := "DSN1";
     RegInfo.deviceSecret := secret_b;
     RegInfo.expires := 900000;
     RegInfo.lastCall := None |}.

Definition pendingRegistrationError : Error :=
  error "PendingRegistration" "This device already has a registration pending" 403.

Definition invalidStateError : Error :=
  error "InvalidState" "Invalid state" 401.

Definition expiredRegistrationCodeError : Error :=
  error "ExpiredRegistrationCode" "Registration code expired" 401.

Definition invalidDeviceSecretError : Error :=
  error "InvalidDeviceSecret"
    "This deviceSecret is either invalid, or register was not completed in time for this deviceSecret. Please restart the process."
    401.

(** The state after the promotion of the registration [info] stored under
    [regCode], with the tokens of [result]. *)
Definition promoted (regCode : string) (info : RegInfo.t) (result : Lwa.result)
    (s : State) : State :=
  {| pendingStateToRegCode := pendingStateToRegCode s;
     pendingRegCodeToDevice := delete regCode (pendingRegCodeToDevice s);
     pendingDeviceToRegCode :=
       delete (productDsn (RegInfo.product info) (RegInfo.dsn info))
              (pendingDeviceToRegCode s);
     deviceInformation :=
       <[productDsn (RegInfo.product info) (RegInfo.dsn info) :=
           {| DeviceInfo.deviceSecret := RegInfo.deviceSecret info;
              DeviceInfo.tokens :=
                {| Tokens.access := Lwa.access_token result;
                   Tokens.refresh := Lwa.refresh_token result;
                   Tokens.expires := Lwa.expires_in result |} |}]>
         (deviceInformation s);
     pendingRegistrationQueue := pendingRegistrationQueue s;
     intervalTimer := intervalTimer s |}.

(** ... and the browser has been sent to the login page at time 1000. *)
Definition one_redirected : State :=
  snd (register code_a entropy_c 1000 one_pending).

(** ... and the device has polled once, at time 5000. *)
Definition one_polled : State :=
  snd (getAccessToken example_config "speaker" "DSN1" secret_b 5000 one_pending).

(** ... and the login has completed at time 2000 and been promoted. *)
Definition one_promoted : State :=
  snd (retrieveTokens_response example_parse (Some code_a)
         {| statusCode := 200; chunks := ["{}"] |}
         (snd (retrieveTokens example_config "authcode123" state_c 2000 one_redirected))).

(** [n] registrations [r0 .. r(n-1)], one per device [bulk:0 .. bulk:(n-1)],
    all created at time 0. *)
Fixpoint bulk (n : nat) : State :=
  match n with
  | O => initial
  | S k => snd (addPendingRegistration ("r" ++ pretty k) "secret" "bulk" (pretty k) 0 (bulk k))
  end.

(** ** auth.validate and the whitelist *)

(** An element of a whitelist pattern: a literal character, or the dot. *)
Inductive PatternChar :=
| Lit (c : ascii)
| AnyChar.

(** What the dot of a regular expression does not match. *)
Definition isLineTerminator (c : ascii) : bool :=
  Ascii.eqb c "010"%char || Ascii.eqb c "013"%char.

(** [pattern.test(url)] for a pattern [/^.../] made of literals and dots:
    the url has to start with the pattern. *)
Fixpoint test (pattern : list PatternChar) (url : string) : bool :=
  match pattern with
  | [] => true
  | p :: rest =>
      match url with
      | EmptyString => false
      | String c url' =>
          match p with
          | Lit l => Ascii.eqb l c
          | AnyChar => negb (isLineTerminator c)
          end && test rest url'
      end
  end.

Definition lits (s : string) : list PatternChar :=
  map Lit (list_ascii_of_string s).

Definition whitelistUrls : list (list PatternChar) :=
  [ lits "/authresponse?code=";
    lits "/device/register";
    lits "/device/regcode";
    lits "/device/accesstoken";
    (lits "/favicon" ++ [AnyChar] ++ lits "ico")%list;
    lits "/public" ].

(** Checks if the url provided is white listed. *)
Definition checkWhiteList (url : string) : bool :=
  existsb (fun pattern => test pattern url) whitelistUrls.

(** [auth.validate]: what is passed to [next], [None] for [next()]. *)
Definition validate (originalUrl : string) : option Error :=
  if checkWhiteList originalUrl then None
  else Some (error "UnauthorizedError" "no authentication" 401).

(** ** The routes of [app.js] *)

Module App.

(** What a route handler does with the response: send a body under a status
    (200 unless [res.status] was called), or end in an exception. *)
Inductive sent (A : Type) :=
| Response (status : Z) (body : A)
| Throws (e : Js.exception).
Arguments Response {A} _ _.
Arguments Throws {A} _.

Inductive RegCodeBody :=
(** [{ error, message, extras: { regCode } }] *)
| RegCodeFailure (error message regCode : string)
(** the reply of [auth.getRegCode], as it is *)
| RegCodeOk (reply : option RegCodeReply.t).

(** The callback [/device/regcode/:product/:dsn] hands to [auth.getRegCode]. *)
Definition regcode_callback (err : option Error) (reply : option RegCodeReply.t)
    : sent RegCodeBody :=
  match err with
  | Some e =>
      match reply with
      | Some r => Response 500 (RegCodeFailure (name e) (message e) (RegCodeReply.regCode r))
      | None => Throws Js.TypeError
      end
  | None => Response 200 (RegCodeOk reply)
  end.

(** [GET /device/regcode/:product/:dsn] *)
Definition get_regcode (config : Config) (product dsn : string)
    (rnd1 rnd2 : RandomSource) (curtime : Z) (s : State)
    : sent RegCodeBody * State :=
  let '((err, reply), s') := getRegCode config product dsn rnd1 rnd2 curtime s in
  (regcode_callback err reply, s').

End App.

(** ** Further notions used to state the properties *)

(** A character of a hex string as [toString('hex')] writes it. *)
Definition isHexDigit (c : ascii) : bool :=
  existsb (Ascii.eqb c) (list_ascii_of_string "0123456789abcdef").

(** Every stored registration has its code in the expiry queue. *)
Definition queued (s : State) : Prop :=
  forall regCode info,
    pendingRegCodeToDevice s !! regCode = Some info ->
    regCode ∈ pendingRegistrationQueue s.

(** * Properties *)

(** ** Identifiers *)

Lemma toHex_length (buf : list byte) :
  String.length (toHex buf) = (2 * length buf)%nat.
Proof.
  induction buf as [|b rest IH]; simpl; [reflexivity|].
  rewrite IH. lia.
Qed.

Lemma randomBytes_length (n : nat) (src : RandomSource) (buf : list byte) :
  randomBytes n src = Some buf -> length buf = n.
Proof.
  destruct src as [|bytes]; simpl; [discriminate|].
  intros [= <-]. now rewrite length_map, length_seq.
Qed.

Lemma productDsn_inj_dsn (product dsn1 dsn2 : string) :
  productDsn product dsn1 = productDsn product dsn2 -> dsn1 = dsn2.
Proof.
  unfold productDsn. induction product as [|c p IH]; simpl.
  - intros [= H]. exact H.
  - intros [= H]. now apply IH.
Qed.

(** ** removePendingDevice *)

Lemma removePendingDevice_absent (regCode : string) (s : State) :
  pendingRegCodeToDevice s !! regCode = None ->
  removePendingDevice regCode s = s.
Proof. unfold removePendingDevice. now intros ->. Qed.

Lemma removePendingDevice_present (regCode : string) (info : RegInfo.t) (s : State) :
  pendingRegCodeToDevice s !! regCode = Some info ->
  removePendingDevice regCode s =
  {| pendingStateToRegCode := pendingStateToRegCode s;
     pendingRegCodeToDevice := delete regCode (pendingRegCodeToDevice s);
     pendingDeviceToRegCode :=
       delete (productDsn (RegInfo.product info) (RegInfo.dsn info))
              (pendingDeviceToRegCode s);
     deviceInformation := deviceInformation s;
     pendingRegistrationQueue := pendingRegistrationQueue s;
     intervalTimer := intervalTimer s |}.
Proof. unfold removePendingDevice. now intros ->. Qed.

Lemma removePendingDevice_codes (regCode : string) (s : State) :
  pendingRegCodeToDevice (removePendingDevice regCode s) =
  delete regCode (pendingRegCodeToDevice s).
Proof.
  destruct (pendingRegCodeToDevice s !! regCode) as [info|] eqn:E.
  - now rewrite (removePendingDevice_present _ _ _ E).
  - rewrite (removePendingDevice_absent _ _ E).
    symmetry. now apply delete_id.
Qed.

Lemma removePendingDevice_queue (regCode : string) (s : State) :
  pendingRegistrationQueue (removePendingDevice regCode s) =
  pendingRegistrationQueue s.
Proof. unfold removePendingDevice. now destruct (_ !! _). Qed.

Lemma removePendingDevice_states (regCode : string) (s : State) :
  pendingStateToRegCode (removePendingDevice regCode s) = pendingStateToRegCode s.
Proof. unfold removePendingDevice. now destruct (_ !! _). Qed.

Lemma removePendingDevice_devices (regCode : string) (s : State) :
  deviceInformation (removePendingDevice regCode s) = deviceInformation s.
Proof. unfold removePendingDevice. now destruct (_ !! _). Qed.

Lemma removePendingDevice_timer (regCode : string) (s : State) :
  intervalTimer (removePendingDevice regCode s) = intervalTimer s.
Proof. unfold removePendingDevice. now destruct (_ !! _). Qed.

(** C9, as the code has it.  [removePendingDevice] deletes the code's entry
    from the code-to-device map and the device's entry from the
    device-to-code index, and leaves the expiry queue as it is (the code
    stays queued until a sweep shifts it away); the other collections are
    not touched, and when the code is absent from the code-to-device map
    the whole state is unchanged. *)
Theorem removePendingDevice_spec (regCode : string) (s : State) :
  let s' := removePendingDevice regCode s in
  pendingRegCodeToDevice s' = delete regCode (pendingRegCodeToDevice s) /\
  pendingDeviceToRegCode s' =
    match pendingRegCodeToDevice s !! regCode with
    | Some info =>
        delete (productDsn (RegInfo.product info) (RegInfo.dsn info))
               (pendingDeviceToRegCode s)
    | None => pendingDeviceToRegCode s
    end /\
  pendingRegistrationQueue s' = pendingRegistrationQueue s /\
  pendingStateToRegCode s' = pendingStateToRegCode s /\
  deviceInformation s' = deviceInformation s /\
  intervalTimer s' = intervalTimer s /\
  (pendingRegCodeToDevice s !! regCode = None -> s' = s).
Proof.
  cbv zeta. repeat split.
  - apply removePendingDevice_codes.
  - unfold removePendingDevice. now destruct (_ !! _).
  - apply removePendingDevice_queue.
  - apply removePendingDevice_states.
  - apply removePendingDevice_devices.
  - apply removePendingDevice_timer.
  - apply removePendingDevice_absent.
Qed.

(** C9, as the claim has it, fails: the registration of [one_pending] is
    removed from both maps and its code is still in the expiry queue. *)
Lemma removePendingDevice_keeps_queue_entry :
  pendingRegCodeToDevice one_pending !! code_a <> None /\
  pendingRegistrationQueue one_pending = [code_a] /\
  pendingRegCodeToDevice (removePendingDevice code_a one_pending) !! code_a = None /\
  pendingRegistrationQueue (removePendingDevice code_a one_pending) = [code_a].
Proof. vm_compute. repeat split; discriminate. Qed.

(** ** addPendingRegistration *)

Lemma capacity_test_false (codes : gmap string RegInfo.t) :
  Js.ge (Js.ToNumber (length_property codes)) (Js.Num MAX_PENDING_REG) = false.
Proof. unfold length_property. now destruct (codes !! "length"). Qed.

Lemma addPendingRegistration_fresh (regCode deviceSecret product dsn : string)
    (curtime : Z) (s : State) :
  pendingDeviceToRegCode s !! productDsn product dsn = None ->
  addPendingRegistration regCode deviceSecret product dsn curtime s =
  (None,
   {| pendingStateToRegCode := pendingStateToRegCode s;
      pendingRegCodeToDevice :=
        <[regCode := {| RegInfo.product := product;
                        RegInfo.dsn := dsn;
                        RegInfo.deviceSecret := deviceSecret;
                        RegInfo.expires := curtime + 900000;
                        RegInfo.lastCall := None |}]> (pendingRegCodeToDevice s);
      pendingDeviceToRegCode :=
        <[productDsn product dsn := regCode]> (pendingDeviceToRegCode s);
      deviceInformation := deviceInformation s;
      pendingRegistrationQueue := pendingRegistrationQueue s ++ [regCode];
      intervalTimer := true |}).
Proof.
  intros H. unfold addPendingRegistration.
  now rewrite capacity_test_false, H.
Qed.

Lemma addPendingRegistration_taken (regCode deviceSecret product dsn : string)
    (curtime : Z) (s : State) :
  is_Some (pendingDeviceToRegCode s !! productDsn product dsn) ->
  addPendingRegistration regCode deviceSecret product dsn curtime s =
  (Some (error "PendingRegistration"
           "This device already has a registration pending" 403), s).
Proof.
  intros [other H]. unfold addPendingRegistration.
  now rewrite capacity_test_false, H.
Qed.

Lemma addPendingRegistration_success_inv (regCode deviceSecret product dsn : string)
    (curtime : Z) (s s1 : State) :
  addPendingRegistration regCode deviceSecret product dsn curtime s = (None, s1) ->
  pendingDeviceToRegCode s !! productDsn product dsn = None.
Proof.
  unfold addPendingRegistration. rewrite capacity_test_false.
  now destruct (pendingDeviceToRegCode s !! productDsn product dsn).
Qed.

(** The store filled by [bulk]. *)

Lemma bulk_succ (k : nat) :
  bulk (S k) =
  snd (addPendingRegistration ("r" ++ pretty k) "secret" "bulk" (pretty k) 0 (bulk k)).
Proof. reflexivity. Qed.

Lemma bulk_index_keys (n : nat) (key regCode : string) :
  pendingDeviceToRegCode (bulk n) !! key = Some regCode ->
  exists j, (j < n)%nat /\ key = productDsn "bulk" (pretty j).
Proof.
  induction n as [|k IH].
  - simpl. now rewrite lookup_empty.
  - rewrite bulk_succ.
    destruct (pendingDeviceToRegCode (bulk k) !! productDsn "bulk" (pretty k)) eqn:E.
    + rewrite addPendingRegistration_taken by eauto. simpl.
      intros H. destruct (IH H) as (j & Hj & ->). exists j. split; [lia|reflexivity].
    + rewrite addPendingRegistration_fresh by exact E. simpl.
      destruct (decide (productDsn "bulk" (pretty k) = key)) as [<-|Hne].
      * intros _. exists k. split; [lia|reflexivity].
      * rewrite lookup_insert_ne by exact Hne.
        intros H. destruct (IH H) as (j & Hj & ->). exists j. split; [lia|reflexivity].
Qed.

Lemma bulk_index_fresh (n : nat) :
  pendingDeviceToRegCode (bulk n) !! productDsn "bulk" (pretty n) = None.
Proof.
  destruct (pendingDeviceToRegCode (bulk n) !! productDsn "bulk" (pretty n)) eqn:E;
    [|reflexivity].
  apply bulk_index_keys in E as (j & Hj & E).
  apply productDsn_inj_dsn in E. apply pretty_nat_inj in E. lia.
Qed.

Lemma bulk_codes_keys (n : nat) (regCode : string) (info : RegInfo.t) :
  pendingRegCodeToDevice (bulk n) !! regCode = Some info ->
  exists j, (j < n)%nat /\ regCode = "r" ++ pretty j.
Proof.
  induction n as [|k IH].
  - simpl. now rewrite lookup_empty.
  - rewrite bulk_succ, addPendingRegistration_fresh by apply bulk_index_fresh.
    simpl.
    destruct (decide ("r" ++ pretty k = regCode)) as [<-|Hne].
    + intros _. exists k. split; [lia|reflexivity].
    + rewrite lookup_insert_ne by exact Hne.
      intros H. destruct (IH H) as (j & Hj & ->). exists j. split; [lia|reflexivity].
Qed.

Lemma bulk_size (n : nat) : size (pendingRegCodeToDevice (bulk n)) = n.
Proof.
  induction n as [|k IH].
  - reflexivity.
  - rewrite bulk_succ, addPendingRegistration_fresh by apply bulk_index_fresh.
    simpl. rewrite map_size_insert_None; [now rewrite IH|].
    destruct (pendingRegCodeToDevice (bulk k) !! ("r" ++ pretty k)) eqn:E;
      [|reflexivity].
    apply bulk_codes_keys in E as (j & Hj & E).
    injection E as E. apply pretty_nat_inj in E. lia.
Qed.

(** C2 on the code.  With 50,000 registrations pending, the capacity test
    of [addPendingRegistration] does not fire: the call for a further device
    returns no error and stores the registration in the code map, the device
    index and the queue. *)
Theorem addPendingRegistration_at_capacity :
  let s := bulk (Z.to_nat MAX_PENDING_REG) in
  Z.of_nat (size (pendingRegCodeToDevice s)) = MAX_PENDING_REG /\
  exists s',
    addPendingRegistration code_a secret_b "speaker" "DSN1" 0 s = (None, s') /\
    pendingRegCodeToDevice s' !! code_a =
      Some {| RegInfo.product := "speaker"; RegInfo.dsn := "DSN1";
              RegInfo.deviceSecret := secret_b; RegInfo.expires := 900000;
              RegInfo.lastCall := None |} /\
    pendingDeviceToRegCode s' !! "speaker:DSN1" = Some code_a /\
    pendingRegistrationQueue s' = (pendingRegistrationQueue s ++ [code_a])%list.
Proof.
  remember (Z.to_nat MAX_PENDING_REG) as n eqn:Hn. cbv zeta. split.
  - rewrite bulk_size. rewrite Hn. unfold MAX_PENDING_REG. lia.
  - eexists. split.
    + apply addPendingRegistration_fresh.
      destruct (pendingDeviceToRegCode (bulk n) !! productDsn "speaker" "DSN1") eqn:E;
        [|reflexivity].
      apply bulk_index_keys in E as (j & _ & E). discriminate E.
    + cbn [pendingRegCodeToDevice pendingDeviceToRegCode pendingRegistrationQueue].
      split; [apply lookup_insert_eq|]. split; [apply (lookup_insert_eq (M:=gmap string))|reflexivity].
Qed.

(** ** The coupling of the two pending maps *)

Lemma coupled_empty : coupled ∅ ∅.
Proof. intros regCode info. now rewrite lookup_empty. Qed.

Lemma coupled_insert (codes : gmap string RegInfo.t) (index : gmap string string)
    (regCode : string) (info : RegInfo.t) :
  coupled codes index ->
  index !! productDsn (RegInfo.product info) (RegInfo.dsn info) = None ->
  coupled (<[regCode := info]> codes)
          (<[productDsn (RegInfo.product info) (RegInfo.dsn info) := regCode]> index).
Proof.
  intros Hc Hfresh other info'.
  destruct (decide (regCode = other)) as [<-|Hne].
  - rewrite lookup_insert_eq. intros [= <-]. apply lookup_insert_eq.
  - rewrite lookup_insert_ne by exact Hne. intros H.
    pose proof (Hc _ _ H) as Hidx.
    rewrite lookup_insert_ne; [exact Hidx|].
    intros E. rewrite E in Hfresh. congruence.
Qed.

Lemma coupled_delete (codes : gmap string RegInfo.t) (index : gmap string string)
    (regCode : string) (info : RegInfo.t) :
  coupled codes index ->
  codes !! regCode = Some info ->
  coupled (delete regCode codes)
          (delete (productDsn (RegInfo.product info) (RegInfo.dsn info)) index).
Proof.
  intros Hc Hin other info'.
  destruct (decide (regCode = other)) as [<-|Hne].
  - now rewrite lookup_delete_eq.
  - rewrite lookup_delete_ne by exact Hne. intros H.
    pose proof (Hc _ _ H) as Hidx. pose proof (Hc _ _ Hin) as Hidx0.
    rewrite lookup_delete_ne; [exact Hidx|].
    intros E. rewrite E in Hidx0. congruence.
Qed.

Lemma coupled_set_lastCall (codes : gmap string RegInfo.t) (index : gmap string string)
    (regCode : string) (info : RegInfo.t) (curtime : Z) :
  coupled codes index ->
  codes !! regCode = Some info ->
  coupled (<[regCode := RegInfo.set_lastCall curtime info]> codes) index.
Proof.
  intros Hc Hin other info'.
  destruct (decide (regCode = other)) as [<-|Hne].
  - rewrite lookup_insert_eq. intros [= <-]. exact (Hc _ _ Hin).
  - rewrite lookup_insert_ne by exact Hne. apply Hc.
Qed.

(** Two registrations of one (product, dsn) pair are one registration. *)
Lemma coupled_unique (codes : gmap string RegInfo.t) (index : gmap string string)
    (regCode1 regCode2 : string) (info1 info2 : RegInfo.t) :
  coupled codes index ->
  codes !! regCode1 = Some info1 ->
  codes !! regCode2 = Some info2 ->
  RegInfo.product info1 = RegInfo.product info2 ->
  RegInfo.dsn info1 = RegInfo.dsn info2 ->
  regCode1 = regCode2.
Proof.
  intros Hc H1 H2 Hp Hd.
  pose proof (Hc _ _ H1) as K1. pose proof (Hc _ _ H2) as K2.
  rewrite Hp, Hd in K1. congruence.
Qed.

Lemma store_inv_initial : store_inv initial.
Proof. exact coupled_empty. Qed.

Lemma store_inv_removePendingDevice (regCode : string) (s : State) :
  store_inv s -> store_inv (removePendingDevice regCode s).
Proof.
  intros Hs. unfold removePendingDevice.
  destruct (pendingRegCodeToDevice s !! regCode) as [info|] eqn:E; [|exact Hs].
  exact (coupled_delete _ _ _ _ Hs E).
Qed.

Lemma store_inv_addPendingRegistration (regCode deviceSecret product dsn : string)
    (curtime : Z) (s : State) :
  store_inv s ->
  store_inv (snd (addPendingRegistration regCode deviceSecret product dsn curtime s)).
Proof.
  intros Hs.
  destruct (pendingDeviceToRegCode s !! productDsn product dsn) as [other|] eqn:E.
  - rewrite addPendingRegistration_taken by eauto. exact Hs.
  - rewrite addPendingRegistration_fresh by exact E.
    exact (coupled_insert _ _ regCode
             {| RegInfo.product := product; RegInfo.dsn := dsn;
                RegInfo.deviceSecret := deviceSecret;
                RegInfo.expires := curtime + 900000;
                RegInfo.lastCall := None |} Hs E).
Qed.

Lemma store_inv_checkExpire_loop (curtime : Z) (queue : list string) (s : State) :
  store_inv s -> store_inv (checkExpire_loop curtime queue s).
Proof.
  revert s. induction queue as [|regCode rest IH]; intros s Hs; simpl; [exact Hs|].
  destruct (pendingRegCodeToDevice s !! regCode) as [info|] eqn:E.
  - destruct (curtime >? RegInfo.expires info); [|exact Hs].
    apply IH. exact (store_inv_removePendingDevice regCode s Hs).
  - apply IH. exact Hs.
Qed.

Lemma store_inv_getRegCode (config : Config) (product dsn : string)
    (rnd1 rnd2 : RandomSource) (curtime : Z) (s : State) :
  store_inv s ->
  store_inv (snd (getRegCode config product dsn rnd1 rnd2 curtime s)).
Proof.
  intros Hs. unfold getRegCode.
  destruct (negb (isValidDevice config product dsn)); [exact Hs|].
  destruct (randomBytes REG_NUM_BYTES rnd1) as [buf1|]; [|exact Hs].
  destruct (randomBytes REG_NUM_BYTES rnd2) as [buf2|]; [|exact Hs].
  pose proof (store_inv_addPendingRegistration (toHex buf1) (toHex buf2)
                product dsn curtime s Hs) as H.
  destruct (addPendingRegistration _ _ _ _ _ s) as [[e|] s']; exact H.
Qed.

Lemma store_inv_register (regCode : string) (rnd : RandomSource) (curtime : Z)
    (s : State) :
  store_inv s -> store_inv (snd (register regCode rnd curtime s)).
Proof.
  intros Hs. unfold register.
  destruct (negb _); [exact Hs|].
  destruct (pendingRegCodeToDevice s !! regCode) as [info|]; [|exact Hs].
  destruct (RegInfo.expires info >? curtime).
  - unfold redirectToDeviceAuthenticate.
    destruct (randomBytes STATE_NUM_BYTES rnd); exact Hs.
  - exact (store_inv_removePendingDevice regCode s Hs).
Qed.

Lemma store_inv_retrieveTokens (config : Config) (authcode stateCode : string)
    (curtime : Z) (s : State) :
  store_inv s ->
  store_inv (snd (retrieveTokens config authcode stateCode curtime s)).
Proof.
  intros Hs. unfold retrieveTokens.
  destruct (_ || _); [|exact Hs].
  set (s1 := set_pendingStateToRegCode _ s).
  assert (H1 : store_inv s1) by exact Hs.
  destruct (pendingRegCodeToDevice s1 !! _) as [info|].
  - destruct (RegInfo.expires info >? curtime); [exact H1|].
    now apply store_inv_removePendingDevice.
  - now apply store_inv_removePendingDevice.
Qed.

Lemma store_inv_retrieveTokens_response (JSON_parse : string -> Lwa.parsed)
    (regCode : option string) (res : HttpResponse) (s : State) :
  store_inv s ->
  store_inv (snd (retrieveTokens_response JSON_parse regCode res s)).
Proof.
  intros Hs. unfold retrieveTokens_response.
  destruct (onData res) as [[buffer|] early]; [|exact Hs].
  destruct (JSON_parse buffer) as [| |result]; [exact Hs| |].
  - destruct (pendingRegCodeToDevice s !! _); exact Hs.
  - destruct (pendingRegCodeToDevice s !! _) as [info|] eqn:E; [|exact Hs].
    apply store_inv_removePendingDevice. exact Hs.
Qed.

Lemma store_inv_getAccessToken (config : Config) (product dsn deviceSecret : string)
    (curtime : Z) (s : State) :
  store_inv s ->
  store_inv (snd (getAccessToken config product dsn deviceSecret curtime s)).
Proof.
  intros Hs. unfold getAccessToken.
  destruct (negb _); [exact Hs|].
  destruct (pendingDeviceToRegCode s !! _) as [regCode|].
  - destruct (pendingRegCodeToDevice s !! regCode) as [regInfo|] eqn:E; [|exact Hs].
    destruct (RegInfo.expires regInfo >? curtime); [|exact Hs].
    destruct (_ && _); [|exact Hs].
    exact (coupled_set_lastCall _ _ _ _ curtime Hs E).
  - destruct (deviceInformation s !! _) as [info|]; [|exact Hs].
    destruct (_ && _); exact Hs.
Qed.

Lemma store_inv_getAccessToken_response (JSON_parse : string -> Lwa.parsed)
    (key : string) (res : HttpResponse) (s : State) :
  store_inv s ->
  store_inv (snd (getAccessToken_response JSON_parse key res s)).
Proof.
  intros Hs. unfold getAccessToken_response.
  destruct (onData res) as [[buffer|] early]; [|exact Hs].
  destruct (JSON_parse buffer) as [| |result]; [exact Hs| |];
    destruct (deviceInformation s !! key); exact Hs.
Qed.

Lemma store_inv_step (config : Config) (JSON_parse : string -> Lwa.parsed)
    (ev : Event) (s : State) :
  store_inv s -> store_inv (step config JSON_parse ev s).
Proof.
  intros Hs. destruct ev; simpl.
  - now apply store_inv_getRegCode.
  - now apply store_inv_register.
  - now apply store_inv_retrieveTokens.
  - now apply store_inv_retrieveTokens_response.
  - now apply store_inv_getAccessToken.
  - now apply store_inv_getAccessToken_response.
  - destruct (intervalTimer s); [|exact Hs].
    now apply store_inv_checkExpire_loop.
Qed.

Lemma store_inv_run (config : Config) (JSON_parse : string -> Lwa.parsed)
    (evs : list Event) (s : State) :
  store_inv s -> store_inv (run config JSON_parse evs s).
Proof.
  revert s. induction evs as [|ev evs IH]; intros s Hs; simpl; [exact Hs|].
  apply IH. now apply store_inv_step.
Qed.

Lemma store_inv_reachable (config : Config) (JSON_parse : string -> Lwa.parsed)
    (s : State) :
  reachable config JSON_parse s -> store_inv s.
Proof.
  intros [evs ->]. apply store_inv_run. exact store_inv_initial.
Qed.

(** ** One registration per device *)

Lemma getRegCode_taken (config : Config) (product dsn : string)
    (rnd1 rnd2 : RandomSource) (curtime : Z) (s : State) :
  is_Some (pendingDeviceToRegCode s !! productDsn product dsn) ->
  snd (getRegCode config product dsn rnd1 rnd2 curtime s) = s /\
  fst (fst (getRegCode config product dsn rnd1 rnd2 curtime s)) <> None /\
  (isValidDevice config product dsn = true ->
   forall buf1 buf2,
     randomBytes REG_NUM_BYTES rnd1 = Some buf1 ->
     randomBytes REG_NUM_BYTES rnd2 = Some buf2 ->
     fst (getRegCode config product dsn rnd1 rnd2 curtime s) =
     (Some pendingRegistrationError,
      Some {| RegCodeReply.regCode := toHex buf1;
              RegCodeReply.deviceSecret := None;
              RegCodeReply.expires := None |})).
Proof.
  intros Htaken. unfold getRegCode.
  destruct (isValidDevice config product dsn); simpl.
  2: { repeat split; [discriminate|discriminate]. }
  destruct (randomBytes REG_NUM_BYTES rnd1) as [buf1|].
  2: { repeat split; [discriminate|discriminate]. }
  destruct (randomBytes REG_NUM_BYTES rnd2) as [buf2|].
  2: { repeat split; [discriminate|discriminate]. }
  rewrite (addPendingRegistration_taken _ _ _ _ _ _ Htaken). simpl.
  repeat split; [discriminate|].
  now intros _ ? ? [= <-] [= <-].
Qed.

(** C3.  In every state the module can reach, a registration pending for a
    (product, dsn) pair makes a further [addPendingRegistration] for that
    pair, and a further [getRegCode], fail with the [PendingRegistration]
    error and leave the whole state (code map, device index and queue
    included) as it was; and no second registration of that pair is stored
    under any code. *)
Theorem second_create_fails (config : Config) (JSON_parse : string -> Lwa.parsed)
    (s : State) (regCode : string) (info : RegInfo.t) :
  reachable config JSON_parse s ->
  pendingRegCodeToDevice s !! regCode = Some info ->
  (forall regCode' deviceSecret' curtime,
     addPendingRegistration regCode' deviceSecret'
       (RegInfo.product info) (RegInfo.dsn info) curtime s =
     (Some pendingRegistrationError, s)) /\
  (forall rnd1 rnd2 curtime,
     snd (getRegCode config (RegInfo.product info) (RegInfo.dsn info)
            rnd1 rnd2 curtime s) = s /\
     fst (fst (getRegCode config (RegInfo.product info) (RegInfo.dsn info)
                 rnd1 rnd2 curtime s)) <> None /\
     (isValidDevice config (RegInfo.product info) (RegInfo.dsn info) = true ->
      forall buf1 buf2,
        randomBytes REG_NUM_BYTES rnd1 = Some buf1 ->
        randomBytes REG_NUM_BYTES rnd2 = Some buf2 ->
        fst (getRegCode config (RegInfo.product info) (RegInfo.dsn info)
               rnd1 rnd2 curtime s) =
        (Some pendingRegistrationError,
         Some {| RegCodeReply.regCode := toHex buf1;
                 RegCodeReply.deviceSecret := None;
                 RegCodeReply.expires := None |}))) /\
  (forall regCode2 info2,
     pendingRegCodeToDevice s !! regCode2 = Some info2 ->
     RegInfo.product info2 = RegInfo.product info ->
     RegInfo.dsn info2 = RegInfo.dsn info ->
     regCode2 = regCode /\ info2 = info).
Proof.
  intros Hreach Hin.
  pose proof (store_inv_reachable _ _ _ Hreach) as Hinv.
  assert (Htaken : is_Some (pendingDeviceToRegCode s
                              !! productDsn (RegInfo.product info) (RegInfo.dsn info)))
    by (exists regCode; exact (Hinv _ _ Hin)).
  split; [|split].
  - intros regCode' deviceSecret' curtime.
    exact (addPendingRegistration_taken _ _ _ _ _ _ Htaken).
  - intros rnd1 rnd2 curtime. exact (getRegCode_taken _ _ _ _ _ _ _ Htaken).
  - intros regCode2 info2 Hin2 Hp Hd.
    assert (regCode2 = regCode) as ->
      by exact (coupled_unique _ _ _ _ _ _ Hinv Hin2 Hin Hp Hd).
    split; [reflexivity|congruence].
Qed.

Lemma second_create_fails_witness :
  reachable example_config example_parse one_pending /\
  pendingRegCodeToDevice one_pending !! code_a = Some info_a /\
  addPendingRegistration "0123456789abcdef01234567" "89abcdef0123456789abcdef"
    "speaker" "DSN1" 4000 one_pending =
  (Some pendingRegistrationError, one_pending).
Proof.
  assert (Hreach : reachable example_config example_parse one_pending).
  { exists [EvGetRegCode "speaker" "DSN1" entropy_a entropy_b 0]. reflexivity. }
  assert (Hin : pendingRegCodeToDevice one_pending !! code_a = Some info_a).
  { vm_compute. reflexivity. }
  split; [exact Hreach|]. split; [exact Hin|].
  destruct (second_create_fails example_config example_parse one_pending
              code_a info_a Hreach Hin) as [Hadd _].
  exact (Hadd _ _ _).
Defined.

(** ** checkExpire *)

Lemma stale_delete (curtime : Z) (codes : gmap string RegInfo.t) (regCode x : string) :
  stale curtime codes regCode = true ->
  stale curtime (delete regCode codes) x = stale curtime codes x.
Proof.
  intros H. unfold stale in *.
  destruct (decide (regCode = x)) as [<-|Hne].
  - now rewrite lookup_delete_eq.
  - now rewrite lookup_delete_ne.
Qed.

Lemma popped_ext (p q : string -> bool) (queue : list string) :
  (forall x, p x = q x) -> popped p queue = popped q queue.
Proof.
  intros H. induction queue as [|x rest IH]; simpl; [reflexivity|].
  now rewrite H, IH.
Qed.

Lemma kept_ext (p q : string -> bool) (queue : list string) :
  (forall x, p x = q x) -> kept p queue = kept q queue.
Proof.
  intros H. induction queue as [|x rest IH]; simpl; [reflexivity|].
  now rewrite H, IH.
Qed.

Lemma popped_kept (p : string -> bool) (queue : list string) :
  (popped p queue ++ kept p queue)%list = queue.
Proof.
  induction queue as [|x rest IH]; simpl; [reflexivity|].
  destruct (p x); simpl; [now rewrite IH|reflexivity].
Qed.

Lemma popped_true (p : string -> bool) (queue : list string) (x : string) :
  x ∈ popped p queue -> p x = true.
Proof.
  induction queue as [|y rest IH]; simpl.
  - intros H. now apply not_elem_of_nil in H.
  - destruct (p y) eqn:E.
    + intros [->|H]%elem_of_cons; [exact E|now apply IH].
    + intros H. now apply not_elem_of_nil in H.
Qed.

Lemma kept_head (p : string -> bool) (queue : list string) (x : string) (rest : list string) :
  kept p queue = x :: rest -> p x = false.
Proof.
  induction queue as [|y tl IH]; simpl; [discriminate|].
  destruct (p y) eqn:E; [exact IH|].
  now intros [= <- _].
Qed.

Lemma popped_all (p : string -> bool) (queue : list string) :
  Forall (fun x => p x = true) queue -> popped p queue = queue.
Proof.
  induction 1 as [|x rest Hx _ IH]; simpl; [reflexivity|].
  now rewrite Hx, IH.
Qed.

Lemma stale_present (curtime : Z) (codes : gmap string RegInfo.t) (regCode : string)
    (info : RegInfo.t) :
  codes !! regCode = Some info ->
  stale curtime codes regCode = (curtime >? RegInfo.expires info).
Proof. unfold stale. now intros ->. Qed.

Lemma stale_absent (curtime : Z) (codes : gmap string RegInfo.t) (regCode : string) :
  codes !! regCode = None -> stale curtime codes regCode = true.
Proof. unfold stale. now intros ->. Qed.

Lemma checkExpire_loop_queue (curtime : Z) (queue : list string) (s : State) :
  pendingRegistrationQueue s = queue ->
  pendingRegistrationQueue (checkExpire_loop curtime queue s) =
  kept (stale curtime (pendingRegCodeToDevice s)) queue.
Proof.
  revert s. induction queue as [|regCode rest IH]; intros s Hq; simpl; [exact Hq|].
  destruct (pendingRegCodeToDevice s !! regCode) as [info|] eqn:E.
  - rewrite (stale_present _ _ _ _ E).
    destruct (curtime >? RegInfo.expires info) eqn:Ex; [|exact Hq].
    rewrite IH.
    + apply kept_ext. intros x. simpl. rewrite removePendingDevice_codes.
      apply stale_delete. now rewrite (stale_present _ _ _ _ E).
    + simpl. now rewrite removePendingDevice_queue, Hq.
  - rewrite (stale_absent _ _ _ E). rewrite IH; [reflexivity|].
    simpl. now rewrite Hq.
Qed.

Lemma checkExpire_loop_codes (curtime : Z) (queue : list string) (s : State) (x : string) :
  pendingRegCodeToDevice (checkExpire_loop curtime queue s) !! x =
  if bool_decide (x ∈ popped (stale curtime (pendingRegCodeToDevice s)) queue)
  then None else pendingRegCodeToDevice s !! x.
Proof.
  revert s. induction queue as [|regCode rest IH]; intros s;
    cbn [checkExpire_loop popped].
  - rewrite bool_decide_eq_false_2; [reflexivity|apply not_elem_of_nil].
  - destruct (pendingRegCodeToDevice s !! regCode) as [info|] eqn:E.
    + rewrite (stale_present _ _ _ _ E).
      destruct (curtime >? RegInfo.expires info) eqn:Ex.
      * rewrite IH. cbn [shift set_pendingRegistrationQueue pendingRegCodeToDevice].
        rewrite removePendingDevice_codes.
        rewrite (popped_ext _ (stale curtime (pendingRegCodeToDevice s)))
          by (intros y; apply stale_delete; now rewrite (stale_present _ _ _ _ E)).
        destruct (decide (x = regCode)) as [->|Hne].
        -- rewrite lookup_delete_eq.
           rewrite (bool_decide_eq_true_2 (regCode ∈ regCode :: _))
             by apply list_elem_of_here.
           now destruct (bool_decide _).
        -- rewrite lookup_delete_ne by congruence.
           apply (f_equal (fun b : bool => if b then None else _)).
           apply bool_decide_ext. rewrite elem_of_cons. intuition congruence.
      * rewrite bool_decide_eq_false_2; [reflexivity|apply not_elem_of_nil].
    + rewrite (stale_absent _ _ _ E). rewrite IH.
      cbn [shift set_pendingRegistrationQueue pendingRegCodeToDevice].
      destruct (decide (x = regCode)) as [->|Hne].
      * rewrite E. now destruct (bool_decide _), (bool_decide _).
      * apply (f_equal (fun b : bool => if b then None else _)).
        apply bool_decide_ext. rewrite elem_of_cons. intuition congruence.
Qed.

Lemma checkExpire_loop_index_None (curtime : Z) (queue : list string) (s : State)
    (key : string) :
  pendingDeviceToRegCode s !! key = None ->
  pendingDeviceToRegCode (checkExpire_loop curtime queue s) !! key = None.
Proof.
  revert s. induction queue as [|regCode rest IH]; intros s Hk; simpl; [exact Hk|].
  destruct (pendingRegCodeToDevice s !! regCode) as [info|] eqn:E.
  - destruct (curtime >? RegInfo.expires info); [|exact Hk].
    apply IH. rewrite (removePendingDevice_present _ _ _ E). simpl.
    destruct (decide (productDsn (RegInfo.product info) (RegInfo.dsn info) = key)) as [<-|Hne].
    + apply lookup_delete_eq.
    + now rewrite lookup_delete_ne.
  - apply IH. exact Hk.
Qed.

Lemma checkExpire_loop_index_removed (curtime : Z) (queue : list string) (s : State)
    (regCode : string) (info : RegInfo.t) :
  pendingRegCodeToDevice s !! regCode = Some info ->
  regCode ∈ popped (stale curtime (pendingRegCodeToDevice s)) queue ->
  pendingDeviceToRegCode (checkExpire_loop curtime queue s)
    !! productDsn (RegInfo.product info) (RegInfo.dsn info) = None.
Proof.
  revert s. induction queue as [|head rest IH]; intros s Hin; simpl.
  - intros H. now apply not_elem_of_nil in H.
  - destruct (pendingRegCodeToDevice s !! head) as [hinfo|] eqn:E.
    + rewrite (stale_present _ _ _ _ E).
      destruct (curtime >? RegInfo.expires hinfo) eqn:Ex.
      2: { intros H. now apply not_elem_of_nil in H. }
      rewrite (popped_ext _ (stale curtime
                 (pendingRegCodeToDevice (shift (removePendingDevice head s)))))
        by (intros y; simpl; rewrite removePendingDevice_codes; symmetry;
            apply stale_delete; now rewrite (stale_present _ _ _ _ E)).
      destruct (decide (regCode = head)) as [->|Hne].
      * intros _. apply checkExpire_loop_index_None.
        rewrite (removePendingDevice_present _ _ _ E). simpl.
        assert (hinfo = info) as -> by congruence.
        apply lookup_delete_eq.
      * intros [->|H]%elem_of_cons; [congruence|].
        apply IH; [|exact H].
        simpl. rewrite removePendingDevice_codes. now rewrite lookup_delete_ne.
    + rewrite (stale_absent _ _ _ E).
      intros [->|H]%elem_of_cons; [congruence|].
      apply IH; [exact Hin|exact H].
Qed.

Lemma checkExpire_loop_others (curtime : Z) (queue : list string) (s : State) :
  pendingStateToRegCode (checkExpire_loop curtime queue s) = pendingStateToRegCode s /\
  deviceInformation (checkExpire_loop curtime queue s) = deviceInformation s /\
  intervalTimer (checkExpire_loop curtime queue s) = intervalTimer s.
Proof.
  revert s. induction queue as [|regCode rest IH]; intros s; simpl; [easy|].
  destruct (pendingRegCodeToDevice s !! regCode) as [info|].
  - destruct (curtime >? RegInfo.expires info); [|easy].
    destruct (IH (shift (removePendingDevice regCode s))) as (-> & -> & ->). simpl.
    now rewrite removePendingDevice_states, removePendingDevice_devices,
      removePendingDevice_timer.
  - now destruct (IH (shift s)) as (-> & -> & ->).
Qed.

(** ** Where a stored registration comes from *)

Lemma same_registration_refl (info : RegInfo.t) : same_registration info info.
Proof. now repeat split. Qed.

Lemma removePendingDevice_lookup (regCode x : string) (info : RegInfo.t) (s : State) :
  pendingRegCodeToDevice (removePendingDevice regCode s) !! x = Some info ->
  pendingRegCodeToDevice s !! x = Some info.
Proof.
  rewrite removePendingDevice_codes.
  destruct (decide (regCode = x)) as [<-|Hne].
  - now rewrite lookup_delete_eq.
  - now rewrite lookup_delete_ne.
Qed.

Ltac kept_as_is :=
  let H := fresh in
  intros H; left; eexists; split; [exact H|now repeat split].

(** A registration found in the code map after an event was there before
    it, the same up to [lastCall], or has just been stored by [getRegCode]
    under a fresh code, with the lifetime counted from that call. *)
Lemma step_codes_origin (config : Config) (JSON_parse : string -> Lwa.parsed)
    (ev : Event) (s : State) (regCode : string) (info : RegInfo.t) :
  pendingRegCodeToDevice (step config JSON_parse ev s) !! regCode = Some info ->
  (exists info0,
     pendingRegCodeToDevice s !! regCode = Some info0 /\ same_registration info0 info) \/
  (exists product dsn rnd1 rnd2 curtime buf1 buf2,
     ev = EvGetRegCode product dsn rnd1 rnd2 curtime /\
     randomBytes REG_NUM_BYTES rnd1 = Some buf1 /\
     randomBytes REG_NUM_BYTES rnd2 = Some buf2 /\
     regCode = toHex buf1 /\
     info = {| RegInfo.product := product; RegInfo.dsn := dsn;
               RegInfo.deviceSecret := toHex buf2;
               RegInfo.expires := curtime + 900000;
               RegInfo.lastCall := None |}).
Proof.
  destruct ev as [product dsn rnd1 rnd2 curtime|code rnd curtime
                 |authcode stateCode curtime|code res
                 |product dsn deviceSecret curtime|key res|curtime]; simpl.
  - unfold getRegCode.
    destruct (negb _); [kept_as_is|].
    destruct (randomBytes REG_NUM_BYTES rnd1) as [buf1|] eqn:H1; [|kept_as_is].
    destruct (randomBytes REG_NUM_BYTES rnd2) as [buf2|] eqn:H2; [|kept_as_is].
    destruct (pendingDeviceToRegCode s !! productDsn product dsn) as [other|] eqn:E.
    + rewrite addPendingRegistration_taken by eauto. simpl. kept_as_is.
    + rewrite addPendingRegistration_fresh by exact E. simpl.
      destruct (decide (toHex buf1 = regCode)) as [<-|Hne].
      * rewrite lookup_insert_eq. intros [= <-]. right.
        now exists product, dsn, rnd1, rnd2, curtime, buf1, buf2.
      * rewrite lookup_insert_ne by exact Hne. kept_as_is.
  - unfold register.
    destruct (negb _); [kept_as_is|].
    destruct (pendingRegCodeToDevice s !! code) as [prodInfo|]; [|kept_as_is].
    destruct (RegInfo.expires prodInfo >? curtime).
    + unfold redirectToDeviceAuthenticate.
      destruct (randomBytes STATE_NUM_BYTES rnd); kept_as_is.
    + simpl. intros H%removePendingDevice_lookup. revert H. kept_as_is.
  - unfold retrieveTokens.
    destruct (_ || _); [|kept_as_is].
    cbn [set_pendingStateToRegCode pendingRegCodeToDevice].
    destruct (pendingRegCodeToDevice s !! Js.property_key _) as [i|];
      [destruct (RegInfo.expires i >? curtime)|]; simpl;
      try (intros H%removePendingDevice_lookup; revert H); kept_as_is.
  - unfold retrieveTokens_response.
    destruct (onData res) as [[buffer|] early]; [|kept_as_is].
    destruct (JSON_parse buffer) as [| |result]; [kept_as_is| |];
      destruct (pendingRegCodeToDevice s !! Js.property_key _) as [i|]; simpl;
      try (intros H%removePendingDevice_lookup; revert H); kept_as_is.
  - unfold getAccessToken.
    destruct (negb _); [kept_as_is|].
    destruct (pendingDeviceToRegCode s !! productDsn product dsn) as [code|].
    + destruct (pendingRegCodeToDevice s !! code) as [regInfo|] eqn:E;
        [|kept_as_is].
      destruct (RegInfo.expires regInfo >? curtime); [|kept_as_is].
      destruct (_ && _); [|kept_as_is].
      simpl. destruct (decide (code = regCode)) as [<-|Hne].
      * rewrite lookup_insert_eq. intros [= <-]. left. exists regInfo.
        split; [exact E|now repeat split].
      * rewrite lookup_insert_ne by exact Hne. kept_as_is.
    + destruct (deviceInformation s !! productDsn product dsn) as [i|]; [|kept_as_is].
      destruct (_ && _); kept_as_is.
  - unfold getAccessToken_response.
    destruct (onData res) as [[buffer|] early]; [|kept_as_is].
    destruct (JSON_parse buffer) as [| |result]; [kept_as_is| |];
      destruct (deviceInformation s !! key); kept_as_is.
  - destruct (intervalTimer s); [|kept_as_is].
    unfold checkExpire. rewrite checkExpire_loop_codes.
    destruct (bool_decide _); [discriminate|kept_as_is].
Qed.

(** Stored codes are hex strings of twelve bytes. *)

Lemma codes_shaped_reachable (config : Config) (JSON_parse : string -> Lwa.parsed)
    (s : State) :
  reachable config JSON_parse s -> codes_shaped (pendingRegCodeToDevice s).
Proof.
  intros [evs ->]. unfold run.
  induction evs as [|ev evs IH] using rev_ind; simpl.
  - intros rc info. now rewrite lookup_empty.
  - rewrite fold_left_app. simpl. intros rc info Hin.
    destruct (step_codes_origin _ _ _ _ _ _ Hin)
      as [(info0 & Hin0 & _)|(p & d & r1 & r2 & t & buf1 & buf2 & _ & H1 & _ & -> & _)].
    + exact (IH _ _ Hin0).
    + rewrite toHex_length, (randomBytes_length _ _ _ H1). reflexivity.
Qed.

(** Registrations expire in the order of the clock readings that created
    them: none outlives the latest reading by more than the fixed lifetime. *)

Lemma expires_upto_step (config : Config) (JSON_parse : string -> Lwa.parsed)
    (t : Z) (ev : Event) (s : State) :
  (forall u, event_time ev = Some u -> u <= t) ->
  expires_upto (t + 900000) (pendingRegCodeToDevice s) ->
  expires_upto (t + 900000) (pendingRegCodeToDevice (step config JSON_parse ev s)).
Proof.
  intros Ht H regCode info Hin.
  destruct (step_codes_origin _ _ _ _ _ _ Hin)
    as [(info0 & Hin0 & _ & _ & _ & ->)
       |(p & d & r1 & r2 & u & buf1 & buf2 & -> & _ & _ & _ & ->)].
  - exact (H _ _ Hin0).
  - pose proof (Ht u eq_refl). simpl. lia.
Qed.

Lemma expires_upto_run (config : Config) (JSON_parse : string -> Lwa.parsed)
    (t : Z) (evs : list Event) (s : State) :
  clock_upto t evs ->
  expires_upto (t + 900000) (pendingRegCodeToDevice s) ->
  expires_upto (t + 900000) (pendingRegCodeToDevice (run config JSON_parse evs s)).
Proof.
  intros Hevs. revert s. induction Hevs as [|ev evs Hev _ IH]; intros s H; simpl.
  - exact H.
  - apply IH. now apply expires_upto_step.
Qed.

Lemma checkExpire_head_unexpired (curtime : Z) (s : State) (regCode : string)
    (rest : list string) :
  pendingRegistrationQueue (checkExpire curtime s) = regCode :: rest ->
  exists info,
    pendingRegCodeToDevice (checkExpire curtime s) !! regCode = Some info /\
    curtime <= RegInfo.expires info.
Proof.
  unfold checkExpire. rewrite checkExpire_loop_queue by reflexivity. intros Hk.
  pose proof (kept_head _ _ _ _ Hk) as Hstale.
  rewrite checkExpire_loop_codes.
  rewrite bool_decide_eq_false_2.
  - unfold stale in Hstale.
    destruct (pendingRegCodeToDevice s !! regCode) as [info|]; [|discriminate].
    exists info. split; [reflexivity|lia].
  - intros Hin. apply popped_true in Hin. congruence.
Qed.

Lemma checkExpire_created (config : Config) (JSON_parse : string -> Lwa.parsed)
    (evs : list Event) (createdAt : Z) (regCode deviceSecret product dsn : string)
    (s1 : State) :
  clock_upto createdAt evs ->
  addPendingRegistration regCode deviceSecret product dsn createdAt
    (run config JSON_parse evs initial) = (None, s1) ->
  let info := {| RegInfo.product := product; RegInfo.dsn := dsn;
                 RegInfo.deviceSecret := deviceSecret;
                 RegInfo.expires := createdAt + 900000;
                 RegInfo.lastCall := None |} in
  pendingRegCodeToDevice s1 !! regCode = Some info /\
  (forall now, now <= createdAt + 900000 ->
     pendingRegCodeToDevice (checkExpire now s1) !! regCode = Some info) /\
  (forall now, createdAt + 900000 < now ->
     pendingRegCodeToDevice (checkExpire now s1) !! regCode = None /\
     pendingDeviceToRegCode (checkExpire now s1) !! productDsn product dsn = None).
Proof.
  intros Hclock Hadd info.
  set (s := run config JSON_parse evs initial) in *.
  pose proof (addPendingRegistration_success_inv _ _ _ _ _ _ _ Hadd) as Hfresh.
  rewrite (addPendingRegistration_fresh _ _ _ _ _ _ Hfresh) in Hadd.
  fold info in Hadd.
  assert (Hexp : RegInfo.expires info = createdAt + 900000) by reflexivity.
  assert (Hkey : productDsn (RegInfo.product info) (RegInfo.dsn info)
                 = productDsn product dsn) by reflexivity.
  clearbody info. injection Hadd as <-.
  assert (Hbound : expires_upto (createdAt + 900000) (pendingRegCodeToDevice s)).
  { apply expires_upto_run; [exact Hclock|].
    intros rc i. simpl. now rewrite lookup_empty. }
  split; [apply lookup_insert_eq|]. split.
  - intros now Hnow. unfold checkExpire. rewrite checkExpire_loop_codes.
    rewrite bool_decide_eq_false_2; [apply lookup_insert_eq|].
    intros Hin. apply popped_true in Hin. unfold stale in Hin.
    cbn [pendingRegCodeToDevice] in Hin.
    rewrite lookup_insert_eq in Hin. lia.
  - intros now Hnow.
    assert (Hall : popped (stale now (<[regCode := info]> (pendingRegCodeToDevice s)))
                     (pendingRegistrationQueue s ++ [regCode])
                   = (pendingRegistrationQueue s ++ [regCode])%list).
    { apply popped_all. apply Forall_forall. intros x _. unfold stale.
      destruct (decide (regCode = x)) as [<-|Hne].
      - rewrite lookup_insert_eq. lia.
      - rewrite lookup_insert_ne by exact Hne.
        destruct (pendingRegCodeToDevice s !! x) as [i|] eqn:E; [|reflexivity].
        pose proof (Hbound _ _ E). lia. }
    assert (Hin : regCode ∈ (pendingRegistrationQueue s ++ [regCode])%list).
    { apply elem_of_app. right. apply list_elem_of_here. }
    unfold checkExpire. cbn [pendingRegistrationQueue]. split.
    + rewrite checkExpire_loop_codes. cbn [pendingRegCodeToDevice]. rewrite Hall.
      now rewrite bool_decide_eq_true_2.
    + rewrite <- Hkey.
      apply (checkExpire_loop_index_removed now _ _ regCode info).
      * apply lookup_insert_eq.
      * cbn [pendingRegCodeToDevice]. rewrite Hall. exact Hin.
Qed.

(** What a sweep does.  A sweep at [curtime] shifts from the expiry queue
    its longest prefix of codes that are absent from the code map or whose
    registration has [expires < curtime], and removes exactly the
    registrations of that prefix from the code map, and their devices from
    the device index; an absent head is just dropped, the sweep stops at the
    first head that is stored and has [curtime <= expires], and the other
    collections are untouched.  A registration created at [createdAt], after
    events whose clock readings were not later, is unaffected by a sweep at
    any time up to [createdAt + 900000] (so at [createdAt + 899000]) and is
    absent after a sweep at any later time (so at [createdAt + 901000]). *)
Theorem checkExpire_spec (config : Config) (JSON_parse : string -> Lwa.parsed) :
  (forall (curtime : Z) (s : State),
     let s' := checkExpire curtime s in
     let swept := popped (stale curtime (pendingRegCodeToDevice s))
                         (pendingRegistrationQueue s) in
     pendingRegistrationQueue s' =
       kept (stale curtime (pendingRegCodeToDevice s)) (pendingRegistrationQueue s) /\
     pendingRegistrationQueue s = (swept ++ pendingRegistrationQueue s')%list /\
     (forall regCode info,
        pendingRegCodeToDevice s !! regCode = Some info ->
        (regCode ∈ swept ->
           RegInfo.expires info < curtime /\
           pendingRegCodeToDevice s' !! regCode = None /\
           pendingDeviceToRegCode s'
             !! productDsn (RegInfo.product info) (RegInfo.dsn info) = None) /\
        (regCode ∉ swept -> pendingRegCodeToDevice s' !! regCode = Some info) /\
        (curtime <= RegInfo.expires info ->
           pendingRegCodeToDevice s' !! regCode = Some info)) /\
     (forall regCode rest info,
        pendingRegistrationQueue s = regCode :: rest ->
        pendingRegCodeToDevice s !! regCode = Some info ->
        RegInfo.expires info < curtime ->
        regCode ∈ swept /\ pendingRegCodeToDevice s' !! regCode = None) /\
     (forall regCode rest,
        pendingRegistrationQueue s = regCode :: rest ->
        pendingRegCodeToDevice s !! regCode = None ->
        pendingRegistrationQueue s' =
          kept (stale curtime (pendingRegCodeToDevice s)) rest) /\
     (forall regCode rest,
        pendingRegistrationQueue s' = regCode :: rest ->
        exists info,
          pendingRegCodeToDevice s' !! regCode = Some info /\
          curtime <= RegInfo.expires info) /\
     (store_inv s -> store_inv s') /\
     pendingStateToRegCode s' = pendingStateToRegCode s /\
     deviceInformation s' = deviceInformation s /\
     intervalTimer s' = intervalTimer s) /\
  (forall (evs : list Event) (createdAt : Z)
          (regCode deviceSecret product dsn : string) (s1 : State),
     clock_upto createdAt evs ->
     addPendingRegistration regCode deviceSecret product dsn createdAt
       (run config JSON_parse evs initial) = (None, s1) ->
     let info := {| RegInfo.product := product; RegInfo.dsn := dsn;
                    RegInfo.deviceSecret := deviceSecret;
                    RegInfo.expires := createdAt + 900000;
                    RegInfo.lastCall := None |} in
     pendingRegCodeToDevice s1 !! regCode = Some info /\
     (forall now, now <= createdAt + 900000 ->
        pendingRegCodeToDevice (checkExpire now s1) !! regCode = Some info) /\
     (forall now, createdAt + 900000 < now ->
        pendingRegCodeToDevice (checkExpire now s1) !! regCode = None /\
        pendingDeviceToRegCode (checkExpire now s1) !! productDsn product dsn = None)).
Proof.
  split; [|apply checkExpire_created].
  intros curtime s s' swept.
  assert (Hcodes : forall x,
            pendingRegCodeToDevice s' !! x =
            if bool_decide (x ∈ swept) then None else pendingRegCodeToDevice s !! x)
    by (intros x; apply checkExpire_loop_codes).
  assert (Hqueue : pendingRegistrationQueue s' =
                   kept (stale curtime (pendingRegCodeToDevice s))
                        (pendingRegistrationQueue s))
    by (apply checkExpire_loop_queue; reflexivity).
  split; [exact Hqueue|].
  split; [rewrite Hqueue; symmetry; apply popped_kept|].
  split; [|split; [|split; [|split; [|split]]]].
  - intros regCode info Hin. split; [|split].
    + intros Hsw. pose proof (popped_true _ _ _ Hsw) as Hst.
      rewrite (stale_present _ _ _ _ Hin) in Hst. split; [lia|]. split.
      * rewrite Hcodes. now rewrite bool_decide_eq_true_2.
      * exact (checkExpire_loop_index_removed _ _ _ _ _ Hin Hsw).
    + intros Hsw. rewrite Hcodes. now rewrite bool_decide_eq_false_2.
    + intros Hexp. rewrite Hcodes. rewrite bool_decide_eq_false_2; [exact Hin|].
      intros Hsw. pose proof (popped_true _ _ _ Hsw) as Hst.
      rewrite (stale_present _ _ _ _ Hin) in Hst. lia.
  - intros regCode rest info Hq Hin Hexp.
    assert (Hsw : regCode ∈ swept).
    { unfold swept. rewrite Hq. simpl. rewrite (stale_present _ _ _ _ Hin).
      replace (curtime >? RegInfo.expires info) with true by lia.
      apply list_elem_of_here. }
    split; [exact Hsw|]. rewrite Hcodes. now rewrite bool_decide_eq_true_2.
  - intros regCode rest Hq Hin. rewrite Hqueue, Hq. simpl.
    now rewrite (stale_absent _ _ _ Hin).
  - intros regCode rest. apply checkExpire_head_unexpired.
  - apply store_inv_checkExpire_loop.
  - apply checkExpire_loop_others.
Qed.

Lemma checkExpire_spec_witness :
  pendingRegCodeToDevice (checkExpire 899000 one_pending) !! code_a = Some info_a /\
  pendingRegCodeToDevice (checkExpire 901000 one_pending) !! code_a = None.
Proof.
  assert (Hadd : addPendingRegistration code_a secret_b "speaker" "DSN1" 0
                   (run example_config example_parse [] initial) = (None, one_pending))
    by (vm_compute; reflexivity).
  assert (Hclock : clock_upto 0 []) by constructor.
  destruct (checkExpire_spec example_config example_parse) as [_ Hcreated].
  destruct (Hcreated [] 0 code_a secret_b "speaker" "DSN1" one_pending
              Hclock Hadd) as (_ & Hbefore & Hafter).
  split.
  - apply Hbefore. lia.
  - apply Hafter. lia.
Defined.

(** C7 on the code.  The registration of [one_pending] expires at 900000
    and is the head of the queue.  At the clock reading 900000 [register]
    and [getAccessToken] treat it as expired, and the sweep does not: the
    loop tests [curtime > expires], so [checkExpire] at 900000 leaves the
    registration in the code map, the device index and the queue. *)
Theorem checkExpire_keeps_head_at_expiry_time :
  pendingRegistrationQueue one_pending = [code_a] /\
  pendingRegCodeToDevice one_pending !! code_a = Some info_a /\
  RegInfo.expires info_a <= 900000 /\
  pendingRegCodeToDevice (checkExpire 900000 one_pending) !! code_a = Some info_a /\
  pendingDeviceToRegCode (checkExpire 900000 one_pending) !! "speaker:DSN1" = Some code_a /\
  pendingRegistrationQueue (checkExpire 900000 one_pending) = [code_a] /\
  fst (register code_a entropy_c 900000 one_pending)
    = RegisterCallback expiredRegistrationCodeError /\
  fst (getAccessToken example_config "speaker" "DSN1" secret_b 900000 one_pending)
    = AccessCallback
        (Some (error "ExpiredDeviceSecret"
                 "Registration was not completed in time for this deviceSecret. Please restart the process."
                 401))
        None.
Proof. vm_compute. repeat split; discriminate. Qed.

(** ** The state token of the browser leg *)

Lemma register_redirect_inv (regCode : string) (rnd : RandomSource) (curtime : Z)
    (s s1 : State) (state product dsn : string) :
  register regCode rnd curtime s = (RegisterRedirect state product dsn, s1) ->
  String.length regCode = 24%nat /\
  String.length state = 64%nat /\
  s1 = set_pendingStateToRegCode (<[state := regCode]> (pendingStateToRegCode s)) s.
Proof.
  unfold register.
  destruct (String.length regCode =? REG_NUM_BYTES * 2)%nat eqn:Hlen; [|discriminate].
  simpl.
  destruct (pendingRegCodeToDevice s !! regCode) as [info|]; [|discriminate].
  destruct (RegInfo.expires info >? curtime); [|discriminate].
  unfold redirectToDeviceAuthenticate.
  destruct (randomBytes STATE_NUM_BYTES rnd) as [buf|] eqn:Hrnd; [|discriminate].
  intros [= <- _ _ <-]. split; [|split; [|reflexivity]].
  - now apply Nat.eqb_eq in Hlen.
  - rewrite toHex_length, (randomBytes_length _ _ _ Hrnd). reflexivity.
Qed.

Lemma truthy_string_length (v : string) (n : nat) :
  String.length v = S n -> Js.truthy_string (Some v) = true.
Proof. destruct v; [discriminate|reflexivity]. Qed.

Lemma retrieveTokens_unknown_state (config : Config) (authcode stateCode : string)
    (curtime : Z) (s : State) :
  String.length stateCode = 64%nat ->
  pendingStateToRegCode s !! stateCode = None ->
  retrieveTokens config authcode stateCode curtime s =
  (RetrieveCallback invalidStateError, s).
Proof.
  intros Hlen Hnone. unfold retrieveTokens.
  now rewrite Hlen, Hnone.
Qed.

Lemma retrieveTokens_consumes_state (config : Config) (authcode stateCode : string)
    (curtime : Z) (s : State) :
  Js.truthy_string (pendingStateToRegCode s !! stateCode) = true ->
  pendingStateToRegCode (snd (retrieveTokens config authcode stateCode curtime s))
  = delete stateCode (pendingStateToRegCode s) /\
  fst (retrieveTokens config authcode stateCode curtime s)
  <> RetrieveCallback invalidStateError.
Proof.
  intros Htruthy. unfold retrieveTokens.
  rewrite Htruthy, orb_true_r.
  set (s1 := set_pendingStateToRegCode _ s).
  destruct (pendingRegCodeToDevice s1 !! _) as [info|].
  - destruct (RegInfo.expires info >? curtime); simpl.
    + split; [reflexivity|discriminate].
    + rewrite removePendingDevice_states. split; [reflexivity|discriminate].
  - simpl. rewrite removePendingDevice_states. split; [reflexivity|discriminate].
Qed.

(** C4.  A state token handed out by [register] (the redirect of
    [beginBrowserAuthentication]) has 64 characters and is mapped to the
    registration code.  In every state in which that mapping is in place,
    the first [retrieveTokens] with the token, whatever it answers, deletes
    the mapping; and from then on, in the state it leaves and in every later
    state in which the token has no mapping, [retrieveTokens] with the same
    token answers [InvalidState] and changes nothing. *)
Theorem state_token_single_use (config : Config) (regCode : string)
    (rnd : RandomSource) (t0 : Z) (s s1 : State) (state product dsn : string) :
  register regCode rnd t0 s = (RegisterRedirect state product dsn, s1) ->
  String.length state = 64%nat /\
  pendingStateToRegCode s1 !! state = Some regCode /\
  forall s1' authcode t1,
    pendingStateToRegCode s1' !! state = Some regCode ->
    let s2 := snd (retrieveTokens config authcode state t1 s1') in
    fst (retrieveTokens config authcode state t1 s1')
      <> RetrieveCallback invalidStateError /\
    pendingStateToRegCode s2 = delete state (pendingStateToRegCode s1') /\
    pendingStateToRegCode s2 !! state = None /\
    (forall authcode' t2,
       retrieveTokens config authcode' state t2 s2 =
       (RetrieveCallback invalidStateError, s2)) /\
    (forall s3 authcode' t2,
       pendingStateToRegCode s3 !! state = None ->
       retrieveTokens config authcode' state t2 s3 =
       (RetrieveCallback invalidStateError, s3)).
Proof.
  intros Hreg.
  destruct (register_redirect_inv _ _ _ _ _ _ _ _ Hreg) as (Hcode & Hstate & ->).
  split; [exact Hstate|]. split; [apply lookup_insert_eq|].
  intros s1' authcode t1 Hmap s2.
  assert (Htruthy : Js.truthy_string (pendingStateToRegCode s1' !! state) = true).
  { rewrite Hmap. exact (truthy_string_length _ _ Hcode). }
  destruct (retrieveTokens_consumes_state config authcode state t1 _ Htruthy)
    as [Hdel Hfirst].
  assert (Hgone : pendingStateToRegCode s2 !! state = None).
  { unfold s2. rewrite Hdel. apply lookup_delete_eq. }
  split; [exact Hfirst|]. split; [exact Hdel|]. split; [exact Hgone|]. split.
  - intros authcode' t2. now apply retrieveTokens_unknown_state.
  - intros s3 authcode' t2 H3. now apply retrieveTokens_unknown_state.
Qed.

Lemma state_token_single_use_witness :
  pendingStateToRegCode one_redirected !! state_c = Some code_a /\
  retrieveTokens example_config "authcode456" state_c 3000
    (snd (retrieveTokens example_config "authcode123" state_c 2000 one_redirected))
  = (RetrieveCallback invalidStateError,
     snd (retrieveTokens example_config "authcode123" state_c 2000 one_redirected)).
Proof.
  assert (Hreg : register code_a entropy_c 1000 one_pending =
                 (RegisterRedirect state_c "speaker" "DSN1", one_redirected))
    by (vm_compute; reflexivity).
  destruct (state_token_single_use example_config _ _ _ _ _ _ _ _ Hreg)
    as (_ & Hmap & Hcalls).
  split; [exact Hmap|].
  destruct (Hcalls one_redirected "authcode123" 2000 Hmap) as (_ & _ & _ & Hsecond & _).
  exact (Hsecond "authcode456" 3000).
Defined.

(** C5 on the code.  The state token ["abc"] was never issued and has not the
    shape of one; [retrieveTokens] does not answer [InvalidState] for it: the
    length test lets every token of a length other than 64 through, and the
    call ends in [ExpiredRegistrationCode]. *)
Theorem retrieveTokens_wrong_shaped_state :
  pendingStateToRegCode initial !! "abc" = None /\
  retrieveTokens example_config "authcode123" "abc" 0 initial =
  (RetrieveCallback expiredRegistrationCodeError, initial).
Proof. vm_compute. split; reflexivity. Qed.

(** What the code does answer [InvalidState] for: the tokens of length 64
    whose mapping is absent (or an empty string). *)
Lemma retrieveTokens_InvalidState_iff (config : Config) (authcode stateCode : string)
    (curtime : Z) (s : State) :
  fst (retrieveTokens config authcode stateCode curtime s)
    = RetrieveCallback invalidStateError <->
  String.length stateCode = 64%nat /\
  Js.truthy_string (pendingStateToRegCode s !! stateCode) = false.
Proof.
  unfold retrieveTokens.
  destruct (String.length stateCode =? STATE_NUM_BYTES * 2)%nat eqn:Hlen;
    destruct (Js.truthy_string (pendingStateToRegCode s !! stateCode)) eqn:Ht;
    simpl.
  4: { apply Nat.eqb_neq in Hlen. split; [|now intros [? _]].
       destruct (pendingRegCodeToDevice _ !! _) as [info|];
         [destruct (RegInfo.expires info >? curtime)|]; discriminate. }
  3: { apply Nat.eqb_neq in Hlen. split; [|now intros [? _]].
       destruct (pendingRegCodeToDevice _ !! _) as [info|];
         [destruct (RegInfo.expires info >? curtime)|]; discriminate. }
  - split; [|now intros [_ ?]].
    destruct (pendingRegCodeToDevice _ !! _) as [info|];
      [destruct (RegInfo.expires info >? curtime)|]; discriminate.
  - apply Nat.eqb_eq in Hlen. easy.
Qed.

(** In a state the module can reach, a token without mapping starts no
    exchange and changes nothing, whatever its length: it is answered
    [InvalidState] when it has 64 characters and [ExpiredRegistrationCode]
    otherwise. *)
Lemma retrieveTokens_unknown_token (config : Config) (JSON_parse : string -> Lwa.parsed)
    (authcode stateCode : string) (curtime : Z) (s : State) :
  reachable config JSON_parse s ->
  pendingStateToRegCode s !! stateCode = None ->
  retrieveTokens config authcode stateCode curtime s =
  (RetrieveCallback
     (if (String.length stateCode =? 64)%nat
      then invalidStateError else expiredRegistrationCodeError),
   s).
Proof.
  intros Hreach Hnone.
  destruct (String.length stateCode =? 64)%nat eqn:Hlen.
  - apply Nat.eqb_eq in Hlen. now apply retrieveTokens_unknown_state.
  - unfold retrieveTokens.
    change (STATE_NUM_BYTES * 2)%nat with 64%nat. rewrite Hlen, Hnone. simpl.
    assert (Hs : set_pendingStateToRegCode
                   (delete stateCode (pendingStateToRegCode s)) s = s).
    { rewrite delete_id by exact Hnone. now destruct s. }
    rewrite Hs.
    assert (Hundef : pendingRegCodeToDevice s !! "undefined" = None).
    { destruct (pendingRegCodeToDevice s !! "undefined") as [info|] eqn:E;
        [|reflexivity].
      pose proof (codes_shaped_reachable _ _ _ Hreach _ _ E) as Hshape.
      discriminate Hshape. }
    rewrite Hundef. now rewrite removePendingDevice_absent.
Qed.

(** ** Promotion *)

Lemma retrieveTokens_request_inv (config : Config) (authcode stateCode : string)
    (curtime : Z) (s s1 : State) (regCode : option string) (reqGrant : Grant) :
  retrieveTokens config authcode stateCode curtime s
    = (RetrieveRequest regCode reqGrant, s1) ->
  regCode = pendingStateToRegCode s !! stateCode /\
  s1 = set_pendingStateToRegCode (delete stateCode (pendingStateToRegCode s)) s /\
  reqGrant = AuthorizationCodeGrant authcode (redirectUrl config)
               (clientId config) (clientSecret config) /\
  exists info,
    pendingRegCodeToDevice s !! Js.property_key regCode = Some info /\
    curtime < RegInfo.expires info.
Proof.
  unfold retrieveTokens.
  destruct (_ || _); [|discriminate].
  cbn [set_pendingStateToRegCode pendingRegCodeToDevice].
  destruct (pendingRegCodeToDevice s !! _) as [info|] eqn:E; [|discriminate].
  destruct (RegInfo.expires info >? curtime) eqn:Ex; [|discriminate].
  intros [= <- <- <-]. repeat split.
  exists info. split; [exact E|lia].
Qed.

Lemma onData_body {A : Type} (res : HttpResponse) :
  statusCode res = 200 ->
  chunks res <> [] ->
  @onData A res = (Some (String.concat "" (chunks res)), []).
Proof.
  intros Hstatus Hchunks. unfold onData. rewrite Hstatus. simpl.
  now destruct (chunks res).
Qed.

Lemma onData_token_response {A : Type} (JSON_parse : string -> Lwa.parsed)
    (res : HttpResponse) (result : Lwa.result) :
  token_response JSON_parse res result ->
  @onData A res = (Some (String.concat "" (chunks res)), []).
Proof. intros (Hstatus & Hchunks & _). now apply onData_body. Qed.

Lemma onData_failure_response {A : Type} (res : HttpResponse) :
  failure_response res ->
  exists early,
    @onData A res = (None, early) /\
    Forall (fun cb => cb = (Some (tokenRetrievalFailure (statusCode res)), None)) early.
Proof.
  intros Hfail. unfold onData.
  destruct (statusCode res =? 200) eqn:Hstatus.
  - destruct Hfail as [Hne| ->]; [lia|].
    exists []. split; [reflexivity|constructor].
  - eexists. split; [reflexivity|].
    apply Forall_forall. intros cb Hin.
    apply list_elem_of_In, in_map_iff in Hin. now destruct Hin as (? & <- & _).
Qed.

Lemma retrieveTokens_response_promotes (JSON_parse : string -> Lwa.parsed)
    (regCode : option string) (res : HttpResponse) (result : Lwa.result)
    (info : RegInfo.t) (s : State) :
  token_response JSON_parse res result ->
  pendingRegCodeToDevice s !! Js.property_key regCode = Some info ->
  retrieveTokens_response JSON_parse regCode res s =
  ({| callbacks := [(None, Some "device tokens ready")]; thrown := None |},
   promoted (Js.property_key regCode) info result s).
Proof.
  intros Hres Hin. unfold retrieveTokens_response.
  rewrite (onData_token_response _ _ _ Hres).
  destruct Hres as (_ & _ & ->). rewrite Hin.
  f_equal.
  rewrite (removePendingDevice_present _ info) by exact Hin.
  reflexivity.
Qed.

Lemma retrieveTokens_response_failure (JSON_parse : string -> Lwa.parsed)
    (regCode : option string) (res : HttpResponse) (s : State) :
  failure_response res ->
  snd (retrieveTokens_response JSON_parse regCode res s) = s /\
  thrown (fst (retrieveTokens_response JSON_parse regCode res s)) = None /\
  last (callbacks (fst (retrieveTokens_response JSON_parse regCode res s)))
    = Some (Some (tokenRetrievalFailure (statusCode res)), None) /\
  Forall (fun cb => cb = (Some (tokenRetrievalFailure (statusCode res)), None))
    (callbacks (fst (retrieveTokens_response JSON_parse regCode res s))).
Proof.
  intros Hfail. unfold retrieveTokens_response.
  destruct (onData_failure_response (A:=string) res Hfail) as (early & -> & Hearly).
  simpl. repeat split.
  - apply last_snoc.
  - apply Forall_app. split; [exact Hearly|]. now constructor.
Qed.

Lemma retrieveTokens_response_atomic (JSON_parse : string -> Lwa.parsed)
    (regCode : option string) (res : HttpResponse) (s : State) :
  snd (retrieveTokens_response JSON_parse regCode res s) = s \/
  exists info result,
    pendingRegCodeToDevice s !! Js.property_key regCode = Some info /\
    token_response JSON_parse res result /\
    retrieveTokens_response JSON_parse regCode res s =
    ({| callbacks := [(None, Some "device tokens ready")]; thrown := None |},
     promoted (Js.property_key regCode) info result s).
Proof.
  destruct (decide (statusCode res = 200)) as [Hstatus|Hstatus].
  2: { left. apply retrieveTokens_response_failure. now left. }
  destruct (decide (chunks res = [])) as [Hchunks|Hchunks].
  { left. apply retrieveTokens_response_failure. now right. }
  pose proof (onData_body (A:=string) res Hstatus Hchunks) as Hdata.
  destruct (JSON_parse (String.concat "" (chunks res))) as [| |result] eqn:Hparse.
  - left. unfold retrieveTokens_response. now rewrite Hdata, Hparse.
  - left. unfold retrieveTokens_response. rewrite Hdata, Hparse.
    now destruct (pendingRegCodeToDevice s !! _).
  - destruct (pendingRegCodeToDevice s !! Js.property_key regCode) as [info|] eqn:Hin.
    + right. exists info, result.
      assert (Hres : token_response JSON_parse res result) by easy.
      split; [reflexivity|]. split; [exact Hres|].
      now apply retrieveTokens_response_promotes.
    + left. unfold retrieveTokens_response. now rewrite Hdata, Hparse, Hin.
Qed.

(** C6.  When [retrieveTokens] posts the authorization-code grant, the
    registration is pending and unexpired and neither the pending maps nor
    the device records have changed.  The response then settles the
    promotion in one step.  On a 200 response with a token body, the device
    record keyed by [product:dsn] is written with the access token, the
    refresh token and the registration's deviceSecret, the registration is
    removed from the code map and the device index, and the callback reports
    success.  On a response that is not a 200 or has no body, every callback
    is [TokenRetrievalFailure] and the state is unchanged.  And whatever the
    response and whatever state it arrives in, the handler either performs
    exactly that promotion or leaves the whole state as it was. *)
Theorem promotion_atomic (config : Config) (JSON_parse : string -> Lwa.parsed)
    (authcode stateCode : string) (curtime : Z) (s s1 : State)
    (regCode : option string) (reqGrant : Grant) :
  retrieveTokens config authcode stateCode curtime s
    = (RetrieveRequest regCode reqGrant, s1) ->
  exists info,
    pendingRegCodeToDevice s1 !! Js.property_key regCode = Some info /\
    curtime < RegInfo.expires info /\
    pendingRegCodeToDevice s1 = pendingRegCodeToDevice s /\
    pendingDeviceToRegCode s1 = pendingDeviceToRegCode s /\
    deviceInformation s1 = deviceInformation s /\
    (forall res result,
       token_response JSON_parse res result ->
       retrieveTokens_response JSON_parse regCode res s1 =
       ({| callbacks := [(None, Some "device tokens ready")]; thrown := None |},
        promoted (Js.property_key regCode) info result s1)) /\
    (forall res,
       failure_response res ->
       snd (retrieveTokens_response JSON_parse regCode res s1) = s1 /\
       thrown (fst (retrieveTokens_response JSON_parse regCode res s1)) = None /\
       last (callbacks (fst (retrieveTokens_response JSON_parse regCode res s1)))
         = Some (Some (tokenRetrievalFailure (statusCode res)), None) /\
       Forall (fun cb => cb = (Some (tokenRetrievalFailure (statusCode res)), None))
         (callbacks (fst (retrieveTokens_response JSON_parse regCode res s1)))) /\
    (forall res s3,
       snd (retrieveTokens_response JSON_parse regCode res s3) = s3 \/
       exists info3 result,
         pendingRegCodeToDevice s3 !! Js.property_key regCode = Some info3 /\
         token_response JSON_parse res result /\
         retrieveTokens_response JSON_parse regCode res s3 =
         ({| callbacks := [(None, Some "device tokens ready")]; thrown := None |},
          promoted (Js.property_key regCode) info3 result s3)).
Proof.
  intros Hreq.
  destruct (retrieveTokens_request_inv _ _ _ _ _ _ _ _ Hreq)
    as (_ & -> & _ & info & Hin & Hexp).
  exists info. split; [exact Hin|]. split; [exact Hexp|].
  split; [reflexivity|]. split; [reflexivity|]. split; [reflexivity|].
  split; [|split].
  - intros res result Hres. now apply retrieveTokens_response_promotes.
  - intros res Hfail. now apply retrieveTokens_response_failure.
  - intros res s3. apply retrieveTokens_response_atomic.
Qed.

Lemma promotion_atomic_witness :
  deviceInformation one_promoted !! "speaker:DSN1" =
    Some {| DeviceInfo.deviceSecret := secret_b;
            DeviceInfo.tokens := {| Tokens.access := Json.Str "A";
                                    Tokens.refresh := Json.Str "R";
                                    Tokens.expires := Json.Number 3600 |} |} /\
  pendingRegCodeToDevice one_promoted !! code_a = None /\
  pendingDeviceToRegCode one_promoted !! "speaker:DSN1" = None.
Proof.
  pose (s1 := snd (retrieveTokens example_config "authcode123" state_c 2000 one_redirected)).
  assert (Hreq : retrieveTokens example_config "authcode123" state_c 2000 one_redirected
                 = (RetrieveRequest (Some code_a)
                      (AuthorizationCodeGrant "authcode123" (redirectUrl example_config)
                         (clientId example_config) (clientSecret example_config)),
                    s1))
    by (vm_compute; reflexivity).
  destruct (promotion_atomic example_config example_parse _ _ _ _ _ _ _ Hreq)
    as (info & Hin & _ & _ & _ & _ & Hok & _).
  assert (Hinfo : info = info_a).
  { assert (H : pendingRegCodeToDevice s1 !! code_a = Some info_a)
      by (vm_compute; reflexivity).
    cbn [Js.property_key] in Hin. congruence. }
  assert (Hres : token_response example_parse
                   {| statusCode := 200; chunks := ["{}"] |}
                   {| Lwa.access_token := Json.Str "A";
                      Lwa.refresh_token := Json.Str "R";
                      Lwa.expires_in := Json.Number 3600 |}).
  { split; [reflexivity|]. split; [discriminate|reflexivity]. }
  unfold one_promoted. fold s1. rewrite (Hok _ _ Hres), Hinfo.
  cbn [snd promoted deviceInformation pendingRegCodeToDevice pendingDeviceToRegCode].
  split; [apply lookup_insert_eq|]. split; [apply lookup_delete_eq|].
  apply (lookup_delete_eq (M:=gmap string)).
Defined.

(** ** Polling *)

Lemma getAccessToken_pending (config : Config) (product dsn deviceSecret : string)
    (curtime : Z) (s : State) (regCode : string) (regInfo : RegInfo.t) :
  isValidDevice config product dsn = true ->
  pendingDeviceToRegCode s !! productDsn product dsn = Some regCode ->
  pendingRegCodeToDevice s !! regCode = Some regInfo ->
  RegInfo.product regInfo = product ->
  RegInfo.dsn regInfo = dsn ->
  curtime < RegInfo.expires regInfo ->
  getAccessToken config product dsn deviceSecret curtime s =
  (AccessCallback None
     (Some (PollStatus
              match RegInfo.lastCall regInfo with
              | None => "waiting"
              | Some previous =>
                  if previous =? 0 then "waiting"
                  else if curtime - previous <? MIN_POLL_RATE
                       then "slowdown" else "waiting"
              end)),
   set_pendingRegCodeToDevice
     (<[regCode := RegInfo.set_lastCall curtime regInfo]> (pendingRegCodeToDevice s))
     s).
Proof.
  intros Hvalid Hidx Hin Hp Hd Hexp. unfold getAccessToken.
  rewrite Hvalid, Hidx, Hin. simpl.
  replace (RegInfo.expires regInfo >? curtime) with true by lia.
  rewrite Hp, Hd, !String.eqb_refl. simpl.
  unfold RegInfo.get_lastCall.
  destruct (RegInfo.lastCall regInfo) as [previous|]; simpl; [|reflexivity].
  destruct (previous =? 0); simpl; [reflexivity|].
  now destruct (curtime - previous <? MIN_POLL_RATE).
Qed.

(** The pending branch never reads [deviceSecret]. *)
Lemma getAccessToken_pending_ignores_secret (config : Config)
    (product dsn secret1 secret2 : string) (curtime : Z) (s : State) :
  is_Some (pendingDeviceToRegCode s !! productDsn product dsn) ->
  getAccessToken config product dsn secret1 curtime s =
  getAccessToken config product dsn secret2 curtime s.
Proof.
  intros [regCode Hidx]. unfold getAccessToken.
  destruct (negb _); [reflexivity|].
  now rewrite Hidx.
Qed.

(** After promotion a secret other than the record's is refused. *)
Lemma getAccessToken_promoted_wrong_secret (config : Config)
    (product dsn deviceSecret : string) (curtime : Z) (s : State)
    (record : DeviceInfo.t) :
  isValidDevice config product dsn = true ->
  pendingDeviceToRegCode s !! productDsn product dsn = None ->
  deviceInformation s !! productDsn product dsn = Some record ->
  deviceSecret <> DeviceInfo.deviceSecret record ->
  getAccessToken config product dsn deviceSecret curtime s =
  (AccessCallback (Some invalidDeviceSecretError) None, s).
Proof.
  intros Hvalid Hidx Hrec Hne. unfold getAccessToken.
  rewrite Hvalid, Hidx, Hrec. simpl.
  destruct (String.eqb (DeviceInfo.deviceSecret record) deviceSecret) eqn:E.
  - apply String.eqb_eq in E. congruence.
  - now rewrite andb_false_r.
Qed.

(** C1 on the code.  While the registration of [speaker:DSN1] is pending
    under the secret [secret_b], a poll that presents another secret is
    answered with a [poll_status], like a poll with the bound secret. *)
Theorem getAccessToken_pending_wrong_secret :
  pendingDeviceToRegCode one_pending !! "speaker:DSN1" = Some code_a /\
  pendingRegCodeToDevice one_pending !! code_a = Some info_a /\
  RegInfo.deviceSecret info_a = secret_b /\
  "000000000000000000000000" <> secret_b /\
  fst (getAccessToken example_config "speaker" "DSN1"
         "000000000000000000000000" 5000 one_pending)
  = AccessCallback None (Some (PollStatus "waiting")) /\
  getAccessToken example_config "speaker" "DSN1"
    "000000000000000000000000" 5000 one_pending
  = getAccessToken example_config "speaker" "DSN1" secret_b 5000 one_pending.
Proof.
  split; [vm_compute; reflexivity|]. split; [vm_compute; reflexivity|].
  split; [reflexivity|]. split; [discriminate|].
  split; [vm_compute; reflexivity|].
  apply getAccessToken_pending_ignores_secret. exists code_a. vm_compute. reflexivity.
Qed.

(** C8.  A device whose registration is pending and unexpired and records a
    previous poll at the clock reading [previous] (a reading other than 0,
    the value the code keeps for "no call yet") is answered ['slowdown'] when
    less than 1000 ms have elapsed since that poll and ['waiting'] otherwise,
    and the poll stores the current time as the registration's [lastCall],
    changing nothing else. *)
Theorem poll_backoff (config : Config) (product dsn deviceSecret : string)
    (curtime previous : Z) (s : State) (regCode : string) (regInfo : RegInfo.t) :
  isValidDevice config product dsn = true ->
  pendingDeviceToRegCode s !! productDsn product dsn = Some regCode ->
  pendingRegCodeToDevice s !! regCode = Some regInfo ->
  RegInfo.product regInfo = product ->
  RegInfo.dsn regInfo = dsn ->
  curtime < RegInfo.expires regInfo ->
  RegInfo.lastCall regInfo = Some previous ->
  previous <> 0 ->
  let s' := snd (getAccessToken config product dsn deviceSecret curtime s) in
  (curtime - previous < 1000 ->
   fst (getAccessToken config product dsn deviceSecret curtime s)
   = AccessCallback None (Some (PollStatus "slowdown"))) /\
  (1000 <= curtime - previous ->
   fst (getAccessToken config product dsn deviceSecret curtime s)
   = AccessCallback None (Some (PollStatus "waiting"))) /\
  pendingRegCodeToDevice s' !! regCode =
    Some {| RegInfo.product := product; RegInfo.dsn := dsn;
            RegInfo.deviceSecret := RegInfo.deviceSecret regInfo;
            RegInfo.expires := RegInfo.expires regInfo;
            RegInfo.lastCall := Some curtime |} /\
  s' = set_pendingRegCodeToDevice
         (<[regCode := RegInfo.set_lastCall curtime regInfo]> (pendingRegCodeToDevice s))
         s.
Proof.
  intros Hvalid Hidx Hin Hp Hd Hexp Hlast Hprev s'.
  unfold s'.
  rewrite (getAccessToken_pending _ _ _ _ _ _ _ _ Hvalid Hidx Hin Hp Hd Hexp).
  rewrite Hlast. replace (previous =? 0) with false by lia.
  unfold MIN_POLL_RATE. cbn [fst snd].
  split; [|split; [|split]].
  - intros H. now replace (curtime - previous <? 1000) with true by lia.
  - intros H. now replace (curtime - previous <? 1000) with false by lia.
  - cbn [set_pendingRegCodeToDevice pendingRegCodeToDevice].
    rewrite lookup_insert_eq. unfold RegInfo.set_lastCall. now rewrite Hp, Hd.
  - reflexivity.
Qed.

Lemma poll_backoff_witness :
  fst (getAccessToken example_config "speaker" "DSN1" secret_b 5999 one_polled)
  = AccessCallback None (Some (PollStatus "slowdown")) /\
  fst (getAccessToken example_config "speaker" "DSN1" secret_b 6000 one_polled)
  = AccessCallback None (Some (PollStatus "waiting")).
Proof.
  assert (Hvalid : isValidDevice example_config "speaker" "DSN1" = true)
    by (vm_compute; reflexivity).
  assert (Hidx : pendingDeviceToRegCode one_polled !! productDsn "speaker" "DSN1"
                 = Some code_a) by (vm_compute; reflexivity).
  assert (Hin : pendingRegCodeToDevice one_polled !! code_a
                = Some (RegInfo.set_lastCall 5000 info_a)) by (vm_compute; reflexivity).
  split.
  - apply (poll_backoff example_config "speaker" "DSN1" secret_b 5999 5000
             one_polled code_a _ Hvalid Hidx Hin eq_refl eq_refl);
      [reflexivity|reflexivity|discriminate|reflexivity].
  - apply (poll_backoff example_config "speaker" "DSN1" secret_b 6000 5000
             one_polled code_a _ Hvalid Hidx Hin eq_refl eq_refl);
      [reflexivity|reflexivity|discriminate|discriminate].
Defined.

(** C10.  A pending, unexpired registration with no [lastCall] recorded is
    answered ['waiting'] at its first poll, whatever the clock reads, and
    the poll records its time; a registration is created without [lastCall],
    so the first poll after [addPendingRegistration] is answered
    ['waiting'] however soon it comes. *)
Theorem first_poll_waiting (config : Config) (product dsn : string) :
  isValidDevice config product dsn = true ->
  (forall (deviceSecret : string) (curtime : Z) (s : State) (regCode : string)
          (regInfo : RegInfo.t),
     pendingDeviceToRegCode s !! productDsn product dsn = Some regCode ->
     pendingRegCodeToDevice s !! regCode = Some regInfo ->
     RegInfo.product regInfo = product ->
     RegInfo.dsn regInfo = dsn ->
     curtime < RegInfo.expires regInfo ->
     RegInfo.lastCall regInfo = None ->
     getAccessToken config product dsn deviceSecret curtime s =
     (AccessCallback None (Some (PollStatus "waiting")),
      set_pendingRegCodeToDevice
        (<[regCode := RegInfo.set_lastCall curtime regInfo]> (pendingRegCodeToDevice s))
        s)) /\
  (forall (regCode secret deviceSecret : string) (createdAt curtime : Z)
          (s s1 : State),
     addPendingRegistration regCode secret product dsn createdAt s = (None, s1) ->
     curtime < createdAt + 900000 ->
     fst (getAccessToken config product dsn deviceSecret curtime s1)
     = AccessCallback None (Some (PollStatus "waiting"))).
Proof.
  intros Hvalid. split.
  - intros deviceSecret curtime s regCode regInfo Hidx Hin Hp Hd Hexp Hlast.
    rewrite (getAccessToken_pending _ _ _ _ _ _ _ _ Hvalid Hidx Hin Hp Hd Hexp).
    now rewrite Hlast.
  - intros regCode secret deviceSecret createdAt curtime s s1 Hadd Hexp.
    pose proof (addPendingRegistration_success_inv _ _ _ _ _ _ _ Hadd) as Hfresh.
    rewrite (addPendingRegistration_fresh _ _ _ _ _ _ Hfresh) in Hadd.
    injection Hadd as <-.
    rewrite (getAccessToken_pending config product dsn deviceSecret curtime _ regCode
               {| RegInfo.product := product; RegInfo.dsn := dsn;
                  RegInfo.deviceSecret := secret;
                  RegInfo.expires := createdAt + 900000;
                  RegInfo.lastCall := None |});
      [reflexivity|exact Hvalid|apply (lookup_insert_eq (M:=gmap string))
      |apply lookup_insert_eq|reflexivity|reflexivity|exact Hexp].
Qed.

Lemma first_poll_waiting_witness :
  fst (getAccessToken example_config "speaker" "DSN1" secret_b 0 one_pending)
  = AccessCallback None (Some (PollStatus "waiting")).
Proof.
  assert (Hvalid : isValidDevice example_config "speaker" "DSN1" = true)
    by (vm_compute; reflexivity).
  assert (Hadd : addPendingRegistration code_a secret_b "speaker" "DSN1" 0 initial
                 = (None, one_pending)) by (vm_compute; reflexivity).
  destruct (first_poll_waiting example_config "speaker" "DSN1" Hvalid) as [_ Hfirst].
  apply (Hfirst code_a secret_b secret_b 0 0 initial one_pending Hadd).
  reflexivity.
Defined.

(** * Further properties of the module *)

(** ** isValidDevice *)

Lemma indexOf_nonneg (x : string) (l : list string) :
  0 <= indexOf x l <-> x ∈ l.
Proof.
  induction l as [|y rest IH]; simpl.
  - split; [lia|]. intros H. now apply not_elem_of_nil in H.
  - destruct (String.eqb y x) eqn:E.
    + apply String.eqb_eq in E as ->. split; [intros _; apply list_elem_of_here|lia].
    + apply String.eqb_neq in E. rewrite elem_of_cons.
      destruct (indexOf x rest <? 0) eqn:Hneg.
      * split; [lia|]. intros [->|H]; [congruence|]. apply IH in H. lia.
      * split; [intros _; right; apply IH; lia|lia].
Qed.

(** X1.  A device is valid exactly when its product name has between 1 and
    384 characters, its serial number is not empty, the product is configured
    and the serial number is listed under it. *)
Theorem isValidDevice_iff (config : Config) (product dsn : string) :
  isValidDevice config product dsn = true <->
  (1 <= String.length product <= 384)%nat /\
  (1 <= String.length dsn)%nat /\
  exists serials, products config !! product = Some serials /\ dsn ∈ serials.
Proof.
  unfold isValidDevice, PRODUCT_MIN_LENGTH, PRODUCT_MAX_LENGTH, DSN_MIN_LENGTH.
  rewrite !andb_true_iff, !Nat.leb_le.
  destruct (products config !! product) as [serials|].
  - rewrite Z.leb_le, indexOf_nonneg. split.
    + intros [[[H1 H2] H3] H4]. repeat split; try assumption. now exists serials.
    + intros ([H1 H2] & H3 & l & [= <-] & H4). now repeat split.
  - split; [intros [_ H]; discriminate|].
    now intros (_ & _ & l & H & _).
Qed.

(** ** auth.getRegCode *)

Lemma hexDigit_isHexDigit (n : N) : isHexDigit (hexDigit n) = true.
Proof.
  destruct n as [|p]; [reflexivity|].
  do 4 (destruct p as [p|p|]; try reflexivity).
Qed.

Lemma toHex_isHexDigit (buf : list byte) :
  Forall (fun c => isHexDigit c = true) (list_ascii_of_string (toHex buf)).
Proof.
  induction buf as [|b rest IH]; simpl; [constructor|].
  constructor; [apply hexDigit_isHexDigit|].
  constructor; [apply hexDigit_isHexDigit|exact IH].
Qed.

(** X2.  [getRegCode] either reports an error and leaves the state as it
    was, or succeeds: then the reply carries a registration code and a device
    secret of 24 hex digits each and the expiry time [curtime + 900000], the
    registration is stored under that code with the requested product and
    serial number and no poll recorded, the device index points to the code,
    the code is last in the expiry queue, the sweep timer is set, and state
    tokens and device records are untouched.  It succeeds whenever the device
    is valid, has no registration pending and both random draws succeed. *)
Theorem getRegCode_spec (config : Config) (product dsn : string)
    (rnd1 rnd2 : RandomSource) (curtime : Z) (s : State) :
  (forall e reply s',
     getRegCode config product dsn rnd1 rnd2 curtime s = ((Some e, reply), s') ->
     s' = s) /\
  (forall reply s',
     getRegCode config product dsn rnd1 rnd2 curtime s = ((None, reply), s') ->
     exists regCode secret,
       reply = Some {| RegCodeReply.regCode := regCode;
                       RegCodeReply.deviceSecret := Some secret;
                       RegCodeReply.expires := Some (curtime + 900000) |} /\
       String.length regCode = 24%nat /\
       String.length secret = 24%nat /\
       Forall (fun c => isHexDigit c = true) (list_ascii_of_string regCode) /\
       Forall (fun c => isHexDigit c = true) (list_ascii_of_string secret) /\
       isValidDevice config product dsn = true /\
       pendingDeviceToRegCode s !! productDsn product dsn = None /\
       pendingRegCodeToDevice s' !! regCode =
         Some {| RegInfo.product := product; RegInfo.dsn := dsn;
                 RegInfo.deviceSecret := secret;
                 RegInfo.expires := curtime + 900000;
                 RegInfo.lastCall := None |} /\
       pendingDeviceToRegCode s' !! productDsn product dsn = Some regCode /\
       pendingRegistrationQueue s' = (pendingRegistrationQueue s ++ [regCode])%list /\
       intervalTimer s' = true /\
       pendingStateToRegCode s' = pendingStateToRegCode s /\
       deviceInformation s' = deviceInformation s) /\
  (isValidDevice config product dsn = true ->
   pendingDeviceToRegCode s !! productDsn product dsn = None ->
   rnd1 <> RandomFailure -> rnd2 <> RandomFailure ->
   fst (fst (getRegCode config product dsn rnd1 rnd2 curtime s)) = None).
Proof.
  unfold getRegCode.
  destruct (isValidDevice config product dsn) eqn:Hvalid; simpl.
  2: { split; [now intros e reply s' [= _ _ <-]|]. split; [discriminate|discriminate]. }
  destruct (randomBytes REG_NUM_BYTES rnd1) as [buf1|] eqn:H1.
  2: { split; [now intros e reply s' [= _ _ <-]|]. split; [discriminate|].
       intros _ _ Hr _. destruct rnd1; [congruence|discriminate]. }
  destruct (randomBytes REG_NUM_BYTES rnd2) as [buf2|] eqn:H2.
  2: { split; [now intros e reply s' [= _ _ <-]|]. split; [discriminate|].
       intros _ _ _ Hr. destruct rnd2; [congruence|discriminate]. }
  destruct (pendingDeviceToRegCode s !! productDsn product dsn) as [other|] eqn:E.
  - rewrite addPendingRegistration_taken by eauto.
    split; [now intros e reply s' [= _ _ <-]|]. split; discriminate.
  - rewrite addPendingRegistration_fresh by exact E.
    cbn [pendingRegCodeToDevice]. rewrite lookup_insert_eq. simpl.
    split; [discriminate|]. split; [|reflexivity].
    intros reply s' [= <- <-]. exists (toHex buf1), (toHex buf2).
    split; [reflexivity|].
    split; [rewrite toHex_length, (randomBytes_length _ _ _ H1); reflexivity|].
    split; [rewrite toHex_length, (randomBytes_length _ _ _ H2); reflexivity|].
    split; [apply toHex_isHexDigit|]. split; [apply toHex_isHexDigit|].
    split; [reflexivity|]. split; [reflexivity|].
    cbn [pendingRegCodeToDevice pendingDeviceToRegCode pendingRegistrationQueue
         intervalTimer pendingStateToRegCode deviceInformation].
    split; [apply lookup_insert_eq|].
    split; [apply (lookup_insert_eq (M:=gmap string))|]. easy.
Qed.

Lemma getRegCode_spec_witness :
  fst (fst (getRegCode example_config "speaker" "DSN2" entropy_c entropy_a 7 one_pending))
  = None.
Proof.
  destruct (getRegCode_spec example_config "speaker" "DSN2" entropy_c entropy_a 7
              one_pending) as (_ & _ & Hok).
  apply Hok.
  - vm_compute. reflexivity.
  - vm_compute. reflexivity.
  - discriminate.
  - discriminate.
Defined.

(** ** The store: removal and sweeps *)

(** X3.  Removing a registration code twice is the same as removing it
    once. *)
Theorem removePendingDevice_idempotent (regCode : string) (s : State) :
  removePendingDevice regCode (removePendingDevice regCode s) =
  removePendingDevice regCode s.
Proof.
  apply removePendingDevice_absent.
  rewrite removePendingDevice_codes. apply lookup_delete_eq.
Qed.

(** X4.  A second sweep at the same clock reading finds nothing to do: the
    first one stopped on an empty queue or on a head that is stored and not
    expired. *)
Theorem checkExpire_idempotent (curtime : Z) (s : State) :
  checkExpire curtime (checkExpire curtime s) = checkExpire curtime s.
Proof.
  set (s' := checkExpire curtime s).
  unfold checkExpire at 1.
  destruct (pendingRegistrationQueue s') as [|regCode rest] eqn:Hq; [reflexivity|].
  destruct (checkExpire_head_unexpired curtime s regCode rest Hq) as (info & Hin & Hexp).
  fold s' in Hin. simpl. rewrite Hin.
  now replace (curtime >? RegInfo.expires info) with false by lia.
Qed.

Lemma queued_removePendingDevice (regCode : string) (s : State) :
  queued s -> queued (removePendingDevice regCode s).
Proof.
  intros Hq rc info Hin. rewrite removePendingDevice_queue.
  apply removePendingDevice_lookup in Hin. exact (Hq _ _ Hin).
Qed.

Lemma queued_checkExpire (curtime : Z) (s : State) :
  queued s -> queued (checkExpire curtime s).
Proof.
  intros Hq rc info. unfold checkExpire.
  rewrite checkExpire_loop_codes, checkExpire_loop_queue by reflexivity.
  destruct (bool_decide _) eqn:Hsw; [discriminate|].
  apply bool_decide_eq_false in Hsw. intros Hin.
  pose proof (Hq _ _ Hin) as Hmem.
  rewrite <- (popped_kept (stale curtime (pendingRegCodeToDevice s))) in Hmem.
  apply elem_of_app in Hmem as [Hmem|Hmem]; [contradiction|exact Hmem].
Qed.

Lemma queued_step (config : Config) (JSON_parse : string -> Lwa.parsed)
    (ev : Event) (s : State) :
  queued s -> queued (step config JSON_parse ev s).
Proof.
  intros Hq.
  destruct ev as [product dsn rnd1 rnd2 curtime|code rnd curtime
                 |authcode stateCode curtime|code res
                 |product dsn deviceSecret curtime|key res|curtime]; simpl.
  - unfold getRegCode.
    destruct (negb _); [exact Hq|].
    destruct (randomBytes REG_NUM_BYTES rnd1) as [buf1|]; [|exact Hq].
    destruct (randomBytes REG_NUM_BYTES rnd2) as [buf2|]; [|exact Hq].
    destruct (pendingDeviceToRegCode s !! productDsn product dsn) as [other|] eqn:E.
    + rewrite addPendingRegistration_taken by eauto. exact Hq.
    + rewrite addPendingRegistration_fresh by exact E.
      unfold queued. cbn [snd pendingRegCodeToDevice pendingRegistrationQueue].
      intros rc info. rewrite elem_of_app. destruct (decide (toHex buf1 = rc)) as [<-|Hne].
      * intros _. right. apply list_elem_of_here.
      * rewrite lookup_insert_ne by exact Hne. intros Hin. left. exact (Hq _ _ Hin).
  - unfold register.
    destruct (negb _); [exact Hq|].
    destruct (pendingRegCodeToDevice s !! code) as [prodInfo|]; [|exact Hq].
    destruct (RegInfo.expires prodInfo >? curtime).
    + unfold redirectToDeviceAuthenticate.
      destruct (randomBytes STATE_NUM_BYTES rnd); exact Hq.
    + now apply queued_removePendingDevice.
  - unfold retrieveTokens.
    destruct (_ || _); [|exact Hq].
    set (s1 := set_pendingStateToRegCode _ s).
    assert (H1 : queued s1) by exact Hq.
    destruct (pendingRegCodeToDevice s1 !! Js.property_key _) as [i|];
      [destruct (RegInfo.expires i >? curtime)|]; simpl;
      [exact H1|now apply queued_removePendingDevice|now apply queued_removePendingDevice].
  - unfold retrieveTokens_response.
    destruct (onData res) as [[buffer|] early]; [|exact Hq].
    destruct (JSON_parse buffer) as [| |result]; [exact Hq| |];
      destruct (pendingRegCodeToDevice s !! Js.property_key _) as [i|]; simpl;
      try exact Hq.
    apply queued_removePendingDevice. exact Hq.
  - unfold getAccessToken.
    destruct (negb _); [exact Hq|].
    destruct (pendingDeviceToRegCode s !! productDsn product dsn) as [code|].
    + destruct (pendingRegCodeToDevice s !! code) as [regInfo|] eqn:E; [|exact Hq].
      destruct (RegInfo.expires regInfo >? curtime); [|exact Hq].
      destruct (_ && _); [|exact Hq].
      unfold queued.
      cbn [snd set_pendingRegCodeToDevice pendingRegCodeToDevice pendingRegistrationQueue].
      intros rc info. destruct (decide (code = rc)) as [<-|Hne].
      * intros _. exact (Hq _ _ E).
      * rewrite lookup_insert_ne by exact Hne. apply Hq.
    + destruct (deviceInformation s !! productDsn product dsn) as [i|]; [|exact Hq].
      destruct (_ && _); exact Hq.
  - unfold getAccessToken_response.
    destruct (onData res) as [[buffer|] early]; [|exact Hq].
    destruct (JSON_parse buffer) as [| |result]; [exact Hq| |];
      destruct (deviceInformation s !! key); exact Hq.
  - destruct (intervalTimer s); [|exact Hq].
    now apply queued_checkExpire.
Qed.

Lemma queued_run (config : Config) (JSON_parse : string -> Lwa.parsed)
    (evs : list Event) :
  queued (run config JSON_parse evs initial).
Proof.
  unfold run. induction evs as [|ev evs IH] using rev_ind; simpl.
  - intros rc info. cbn [initial pendingRegCodeToDevice]. now rewrite lookup_empty.
  - rewrite fold_left_app. simpl. now apply queued_step.
Qed.

(** X5.  In every state the module can reach, each stored registration has
    its code in the expiry queue, so no registration is out of the sweep's
    reach. *)
Theorem queued_reachable (config : Config) (JSON_parse : string -> Lwa.parsed)
    (s : State) :
  reachable config JSON_parse s -> queued s.
Proof. intros [evs ->]. apply queued_run. Qed.

Lemma queued_reachable_witness : queued one_polled.
Proof.
  apply (queued_reachable example_config example_parse).
  exists [EvGetRegCode "speaker" "DSN1" entropy_a entropy_b 0;
          EvGetAccessToken "speaker" "DSN1" secret_b 5000].
  reflexivity.
Defined.

(** X6.  No registration outlives its lifetime by more than one sweep: after
    any events whose clock readings were at most [t], a sweep at a time later
    than [t + 900000] leaves the code map and the expiry queue empty. *)
Theorem checkExpire_late_sweep (config : Config) (JSON_parse : string -> Lwa.parsed)
    (evs : list Event) (t now : Z) :
  clock_upto t evs ->
  t + 900000 < now ->
  pendingRegCodeToDevice (checkExpire now (run config JSON_parse evs initial)) = ∅ /\
  pendingRegistrationQueue (checkExpire now (run config JSON_parse evs initial)) = [].
Proof.
  intros Hclock Hnow. set (s := run config JSON_parse evs initial).
  assert (Hbound : expires_upto (t + 900000) (pendingRegCodeToDevice s)).
  { apply expires_upto_run; [exact Hclock|].
    intros rc i. simpl. now rewrite lookup_empty. }
  assert (Hq : queued s) by apply queued_run.
  assert (Hall : popped (stale now (pendingRegCodeToDevice s)) (pendingRegistrationQueue s)
                 = pendingRegistrationQueue s).
  { apply popped_all. apply Forall_forall. intros x _. unfold stale.
    destruct (pendingRegCodeToDevice s !! x) as [i|] eqn:E; [|reflexivity].
    pose proof (Hbound _ _ E). lia. }
  split.
  - apply map_eq. intros rc. rewrite lookup_empty.
    unfold checkExpire. rewrite checkExpire_loop_codes, Hall.
    destruct (bool_decide _) eqn:Hd; [reflexivity|].
    apply bool_decide_eq_false in Hd.
    destruct (pendingRegCodeToDevice s !! rc) as [i|] eqn:E; [|reflexivity].
    exfalso. apply Hd. exact (Hq _ _ E).
  - unfold checkExpire. rewrite checkExpire_loop_queue by reflexivity.
    pose proof (popped_kept (stale now (pendingRegCodeToDevice s))
                  (pendingRegistrationQueue s)) as Hpk.
    rewrite Hall in Hpk.
    apply (f_equal (@length string)) in Hpk. rewrite length_app in Hpk.
    destruct (kept _ _); [reflexivity|simpl in Hpk; lia].
Qed.

Lemma checkExpire_late_sweep_witness :
  pendingRegCodeToDevice (checkExpire 905001 one_polled) = ∅ /\
  pendingRegistrationQueue (checkExpire 905001 one_polled) = [].
Proof.
  apply (checkExpire_late_sweep example_config example_parse
           [EvGetRegCode "speaker" "DSN1" entropy_a entropy_b 0;
            EvGetAccessToken "speaker" "DSN1" secret_b 5000] 5000 905001).
  - repeat constructor; intros u [= <-]; lia.
  - lia.
Defined.

(** ** auth.register *)

(** X7.  [register] answers [InvalidRegistrationCode], changing nothing, for
    a code that has not 24 characters or is not stored.  For a stored code
    whose registration has expired ([expires <= curtime]) it answers
    [ExpiredRegistrationCode] and removes the registration from the code map
    and the device index, so that the same code is an invalid one from then
    on.  For a stored, unexpired code it redirects with the product and
    serial number of the registration and a fresh state token mapped to the
    code, or passes [InternalError] to [next] when no random bytes are to be
    had, and leaves the pending maps as they are. *)
Theorem register_outcomes (regCode : string) (rnd : RandomSource) (curtime : Z)
    (s : State) :
  let invalid :=
    RegisterCallback (error "InvalidRegistrationCode" "Registration code is invalid" 401) in
  (String.length regCode <> 24%nat \/ pendingRegCodeToDevice s !! regCode = None ->
   register regCode rnd curtime s = (invalid, s)) /\
  (forall info,
     String.length regCode = 24%nat ->
     pendingRegCodeToDevice s !! regCode = Some info ->
     RegInfo.expires info <= curtime ->
     register regCode rnd curtime s =
       (RegisterCallback expiredRegistrationCodeError, removePendingDevice regCode s) /\
     pendingRegCodeToDevice (removePendingDevice regCode s) !! regCode = None /\
     pendingDeviceToRegCode (removePendingDevice regCode s)
       !! productDsn (RegInfo.product info) (RegInfo.dsn info) = None /\
     forall rnd' curtime',
       register regCode rnd' curtime' (removePendingDevice regCode s) =
       (invalid, removePendingDevice regCode s)) /\
  (forall info,
     String.length regCode = 24%nat ->
     pendingRegCodeToDevice s !! regCode = Some info ->
     curtime < RegInfo.expires info ->
     match randomBytes STATE_NUM_BYTES rnd with
     | Some buf =>
         register regCode rnd curtime s =
         (RegisterRedirect (toHex buf) (RegInfo.product info) (RegInfo.dsn info),
          set_pendingStateToRegCode
            (<[toHex buf := regCode]> (pendingStateToRegCode s)) s)
     | None =>
         register regCode rnd curtime s =
         (RegisterNext (error "InternalError" "Unknown failure" 500), s)
     end).
Proof.
  assert (Hinvalid : forall rnd0 t0 s0,
            String.length regCode <> 24%nat \/ pendingRegCodeToDevice s0 !! regCode = None ->
            register regCode rnd0 t0 s0 =
            (RegisterCallback
               (error "InvalidRegistrationCode" "Registration code is invalid" 401), s0)).
  { intros rnd0 t0 s0 H. unfold register.
    destruct (String.length regCode =? REG_NUM_BYTES * 2)%nat eqn:Hlen; [|reflexivity].
    apply Nat.eqb_eq in Hlen. destruct H as [H|H]; [contradiction|].
    simpl. now rewrite H. }
  cbv zeta. split; [apply Hinvalid|]. split.
  - intros info Hlen Hin Hexp. split; [|split; [|split]].
    + unfold register. change (REG_NUM_BYTES * 2)%nat with 24%nat.
      rewrite Hlen, Nat.eqb_refl, Hin. simpl.
      now replace (RegInfo.expires info >? curtime) with false by lia.
    + rewrite removePendingDevice_codes. apply lookup_delete_eq.
    + rewrite (removePendingDevice_present _ _ _ Hin). apply (lookup_delete_eq (M:=gmap string)).
    + intros rnd' curtime'. apply Hinvalid. right.
      rewrite removePendingDevice_codes. apply lookup_delete_eq.
  - intros info Hlen Hin Hexp. unfold register.
    change (REG_NUM_BYTES * 2)%nat with 24%nat.
    rewrite Hlen, Nat.eqb_refl, Hin. simpl.
    replace (RegInfo.expires info >? curtime) with true by lia.
    unfold redirectToDeviceAuthenticate.
    now destruct (randomBytes STATE_NUM_BYTES rnd).
Qed.

Lemma register_outcomes_witness :
  register code_a entropy_c 900000 one_pending =
  (RegisterCallback expiredRegistrationCodeError, removePendingDevice code_a one_pending).
Proof.
  destruct (register_outcomes code_a entropy_c 900000 one_pending) as (_ & Hexpired & _).
  apply (Hexpired info_a).
  - reflexivity.
  - vm_compute. reflexivity.
  - vm_compute. discriminate.
Defined.

(** ** auth.retrieveTokens *)

(** X8.  An authorization code is never exchanged for a registration that
    is gone or has expired: when the state token is mapped to a code whose
    registration is absent or has [expires <= curtime], [retrieveTokens]
    answers [ExpiredRegistrationCode] without posting a grant, consumes the
    state token, removes what is left of the registration from the code
    map, and creates no device record. *)
Theorem retrieveTokens_expired (config : Config) (authcode stateCode : string)
    (curtime : Z) (s : State) (regCode : string) :
  pendingStateToRegCode s !! stateCode = Some regCode ->
  regCode <> "" ->
  (forall info, pendingRegCodeToDevice s !! regCode = Some info ->
                RegInfo.expires info <= curtime) ->
  let s' := snd (retrieveTokens config authcode stateCode curtime s) in
  fst (retrieveTokens config authcode stateCode curtime s)
    = RetrieveCallback expiredRegistrationCodeError /\
  pendingStateToRegCode s' = delete stateCode (pendingStateToRegCode s) /\
  pendingRegCodeToDevice s' = delete regCode (pendingRegCodeToDevice s) /\
  (forall info, pendingRegCodeToDevice s !! regCode = Some info ->
     pendingDeviceToRegCode s' =
     delete (productDsn (RegInfo.product info) (RegInfo.dsn info))
            (pendingDeviceToRegCode s)) /\
  deviceInformation s' = deviceInformation s /\
  pendingRegistrationQueue s' = pendingRegistrationQueue s.
Proof.
  intros Hmap Hne Hexp. cbv zeta. unfold retrieveTokens.
  assert (Ht : Js.truthy_string (pendingStateToRegCode s !! stateCode) = true).
  { rewrite Hmap. simpl. destruct regCode; [congruence|reflexivity]. }
  rewrite Ht, orb_true_r, Hmap. cbn [Js.property_key].
  set (s1 := set_pendingStateToRegCode (delete stateCode (pendingStateToRegCode s)) s).
  change (pendingRegCodeToDevice s1) with (pendingRegCodeToDevice s).
  destruct (pendingRegCodeToDevice s !! regCode) as [info|] eqn:E.
  - pose proof (Hexp info eq_refl).
    replace (RegInfo.expires info >? curtime) with false by lia.
    cbn [fst snd].
    rewrite removePendingDevice_states, removePendingDevice_codes,
      removePendingDevice_devices, removePendingDevice_queue.
    repeat split.
    intros info' [= <-].
    now rewrite (removePendingDevice_present regCode info s1 E).
  - cbn [fst snd].
    rewrite removePendingDevice_states, removePendingDevice_codes,
      removePendingDevice_devices, removePendingDevice_queue.
    repeat split. discriminate.
Qed.

Lemma retrieveTokens_expired_witness :
  fst (retrieveTokens example_config "authcode123" state_c 900000 one_redirected)
  = RetrieveCallback expiredRegistrationCodeError.
Proof.
  apply (retrieveTokens_expired example_config "authcode123" state_c 900000
           one_redirected code_a).
  - vm_compute. reflexivity.
  - discriminate.
  - intros info Hin.
    assert (H : pendingRegCodeToDevice one_redirected !! code_a = Some info_a)
      by (vm_compute; reflexivity).
    rewrite H in Hin. injection Hin as <-. vm_compute. discriminate.
Defined.

(** ** auth.getAccessToken *)

(** X9.  A call of [getAccessToken] writes nothing but the [lastCall] of the
    polled registration: state tokens, device index, device records, expiry
    queue and timer are as before; the state changes only when a
    [poll_status] is answered, and then the only entry of the code map that
    differs is the one the device index gives for the device, with [lastCall]
    set to the current time. *)
Theorem getAccessToken_frame (config : Config) (product dsn deviceSecret : string)
    (curtime : Z) (s : State) :
  let outcome := fst (getAccessToken config product dsn deviceSecret curtime s) in
  let s' := snd (getAccessToken config product dsn deviceSecret curtime s) in
  pendingStateToRegCode s' = pendingStateToRegCode s /\
  pendingDeviceToRegCode s' = pendingDeviceToRegCode s /\
  deviceInformation s' = deviceInformation s /\
  pendingRegistrationQueue s' = pendingRegistrationQueue s /\
  intervalTimer s' = intervalTimer s /\
  ((exists poll_status, outcome = AccessCallback None (Some (PollStatus poll_status)))
   \/ s' = s) /\
  (forall regCode,
     pendingRegCodeToDevice s' !! regCode = pendingRegCodeToDevice s !! regCode \/
     (pendingDeviceToRegCode s !! productDsn product dsn = Some regCode /\
      exists info,
        pendingRegCodeToDevice s !! regCode = Some info /\
        pendingRegCodeToDevice s' !! regCode = Some (RegInfo.set_lastCall curtime info))).
Proof.
  cbv zeta. unfold getAccessToken.
  destruct (negb _); [now repeat split; auto|].
  destruct (pendingDeviceToRegCode s !! productDsn product dsn) as [code|] eqn:Hidx.
  - destruct (pendingRegCodeToDevice s !! code) as [regInfo|] eqn:E;
      [|now repeat split; auto].
    destruct (RegInfo.expires regInfo >? curtime); [|now repeat split; auto].
    destruct (_ && _); [|now repeat split; auto].
    cbn [fst snd set_pendingRegCodeToDevice pendingStateToRegCode
         pendingDeviceToRegCode deviceInformation pendingRegistrationQueue
         intervalTimer pendingRegCodeToDevice].
    repeat split; [left; eauto|].
    intros regCode. destruct (decide (code = regCode)) as [<-|Hne].
    + right. split; [reflexivity|]. exists regInfo. split; [exact E|apply lookup_insert_eq].
    + left. now apply lookup_insert_ne.
  - destruct (deviceInformation s !! productDsn product dsn) as [info|];
      [|now repeat split; auto].
    destruct (_ && _); now repeat split; auto.
Qed.

(** X10.  For a valid device with no registration pending, [getAccessToken]
    posts the refresh-token grant, carrying the stored refresh token, exactly
    when a device record exists and the presented secret has 24 characters
    and equals the record's; in every other case it answers
    [InvalidDeviceSecret].  Either way the state is unchanged. *)
Theorem getAccessToken_registered (config : Config) (product dsn deviceSecret : string)
    (curtime : Z) (s : State) :
  isValidDevice config product dsn = true ->
  pendingDeviceToRegCode s !! productDsn product dsn = None ->
  snd (getAccessToken config product dsn deviceSecret curtime s) = s /\
  (forall record,
     deviceInformation s !! productDsn product dsn = Some record ->
     DeviceInfo.deviceSecret record = deviceSecret ->
     String.length deviceSecret = 24%nat ->
     fst (getAccessToken config product dsn deviceSecret curtime s) =
     AccessRequest (productDsn product dsn)
       (RefreshTokenGrant (Tokens.refresh (DeviceInfo.tokens record))
          (clientId config) (clientSecret config))) /\
  ((forall record,
      deviceInformation s !! productDsn product dsn = Some record ->
      DeviceInfo.deviceSecret record <> deviceSecret \/
      String.length deviceSecret <> 24%nat) ->
   fst (getAccessToken config product dsn deviceSecret curtime s) =
   AccessCallback (Some invalidDeviceSecretError) None).
Proof.
  intros Hvalid Hidx. unfold getAccessToken. rewrite Hvalid, Hidx.
  cbn [negb]. change (REG_NUM_BYTES * 2)%nat with 24%nat.
  destruct (deviceInformation s !! productDsn product dsn) as [record|].
  - destruct (String.length deviceSecret =? 24)%nat eqn:Hlen;
      destruct (String.eqb (DeviceInfo.deviceSecret record) deviceSecret) eqn:Heq;
      cbn [andb fst snd]; (split; [reflexivity|]); split;
      try reflexivity;
      try (apply String.eqb_neq in Heq); try (apply String.eqb_eq in Heq);
      try (apply Nat.eqb_neq in Hlen); try (apply Nat.eqb_eq in Hlen).
    + now intros r [= <-] _ _.
    + intros H. destruct (H record eq_refl); contradiction.
    + intros r [= <-] H _. contradiction.
    + intros r [= <-] _ H. contradiction.
    + intros r [= <-] H _. contradiction.
  - split; [reflexivity|]. split; [discriminate|reflexivity].
Qed.

Lemma getAccessToken_registered_witness :
  fst (getAccessToken example_config "speaker" "DSN1" secret_b 9000 one_promoted) =
  AccessRequest "speaker:DSN1"
    (RefreshTokenGrant (Json.Str "R") (clientId example_config)
       (clientSecret example_config)).
Proof.
  assert (Hvalid : isValidDevice example_config "speaker" "DSN1" = true)
    by (vm_compute; reflexivity).
  assert (Hidx : pendingDeviceToRegCode one_promoted !! productDsn "speaker" "DSN1" = None)
    by (vm_compute; reflexivity).
  destruct (getAccessToken_registered example_config "speaker" "DSN1" secret_b 9000
              one_promoted Hvalid Hidx) as (_ & Hok & _).
  apply (Hok {| DeviceInfo.deviceSecret := secret_b;
                DeviceInfo.tokens := {| Tokens.access := Json.Str "A";
                                        Tokens.refresh := Json.Str "R";
                                        Tokens.expires := Json.Number 3600 |} |}).
  - vm_compute. reflexivity.
  - reflexivity.
  - reflexivity.
Defined.

Ltac untouched :=
  cbn [fst snd]; repeat split; eauto;
  solve [ intros; discriminate
        | intros ? [= <-]; eexists; repeat split; eassumption || reflexivity
        | intros ? ?; eexists; repeat split; eassumption || reflexivity ].

(** X11.  The response to a refresh grant.  On a 200 response with a token
    body, the device record keeps its secret and refresh token and takes the
    new access token and lifetime, which are also what the callback receives.
    On a response that is not a 200 or has no body, the ['end'] handler
    throws a [ReferenceError] before it reaches its callback, so the only
    callbacks are one [TokenRetrievalFailure] per chunk of a non-200 body, and
    the state is unchanged.  In no case is anything but the record of that
    device written. *)
Theorem getAccessToken_response_spec (JSON_parse : string -> Lwa.parsed)
    (key : string) (res : HttpResponse) (s : State) :
  let handled := fst (getAccessToken_response JSON_parse key res s) in
  let s' := snd (getAccessToken_response JSON_parse key res s) in
  (forall result record,
     token_response JSON_parse res result ->
     deviceInformation s !! key = Some record ->
     handled = {| callbacks := [(None, Some (AccessToken (Lwa.access_token result)
                                                          (Lwa.expires_in result)))];
                  thrown := None |} /\
     deviceInformation s' !! key =
       Some {| DeviceInfo.deviceSecret := DeviceInfo.deviceSecret record;
               DeviceInfo.tokens :=
                 {| Tokens.access := Lwa.access_token result;
                    Tokens.refresh := Tokens.refresh (DeviceInfo.tokens record);
                    Tokens.expires := Lwa.expires_in result |} |}) /\
  (failure_response res ->
     s' = s /\
     thrown handled = Some Js.ReferenceError /\
     callbacks handled =
       (if statusCode res =? 200 then []
        else map (fun _ => (Some (tokenRetrievalFailure (statusCode res)), None))
               (chunks res))) /\
  pendingStateToRegCode s' = pendingStateToRegCode s /\
  pendingRegCodeToDevice s' = pendingRegCodeToDevice s /\
  pendingDeviceToRegCode s' = pendingDeviceToRegCode s /\
  pendingRegistrationQueue s' = pendingRegistrationQueue s /\
  intervalTimer s' = intervalTimer s /\
  (forall other, other <> key ->
     deviceInformation s' !! other = deviceInformation s !! other) /\
  (forall record, deviceInformation s !! key = Some record ->
     exists record',
       deviceInformation s' !! key = Some record' /\
       DeviceInfo.deviceSecret record' = DeviceInfo.deviceSecret record /\
       Tokens.refresh (DeviceInfo.tokens record')
       = Tokens.refresh (DeviceInfo.tokens record)).
Proof.
  cbv zeta. split; [|split].
  - intros result record Hres Hrec. unfold getAccessToken_response.
    rewrite (onData_token_response (A:=AccessReply) _ _ _ Hres).
    destruct Hres as (_ & _ & ->). rewrite Hrec.
    cbn [fst snd set_deviceInformation deviceInformation app].
    split; [reflexivity|apply lookup_insert_eq].
  - intros Hfail. unfold getAccessToken_response, onData.
    destruct (statusCode res =? 200) eqn:Hstatus.
    + destruct Hfail as [Hne|Hnil]; [lia|]. now rewrite Hnil.
    + easy.
  - unfold getAccessToken_response.
    destruct (onData res) as [[buffer|] early]; [|untouched].
    destruct (JSON_parse buffer) as [| |result]; [untouched| |];
      (destruct (deviceInformation s !! key) as [info|] eqn:E; [|untouched]);
      [untouched|].
    cbn [fst snd set_deviceInformation pendingStateToRegCode pendingRegCodeToDevice
         pendingDeviceToRegCode pendingRegistrationQueue intervalTimer deviceInformation].
    repeat split.
    + intros other Hne. now apply lookup_insert_ne.
    + intros record [= <-]. rewrite lookup_insert_eq. eexists. now repeat split.
Qed.

Lemma getAccessToken_response_spec_witness :
  snd (getAccessToken_response example_parse "speaker:DSN1"
         {| statusCode := 503; chunks := ["Service Unavailable"] |} one_promoted)
  = one_promoted.
Proof.
  destruct (getAccessToken_response_spec example_parse "speaker:DSN1"
              {| statusCode := 503; chunks := ["Service Unavailable"] |} one_promoted)
    as (_ & Hfail & _).
  apply Hfail. left. discriminate.
Defined.

(** ** Device records *)

Lemma getAccessToken_devices (config : Config) (product dsn deviceSecret : string)
    (curtime : Z) (s : State) :
  deviceInformation (snd (getAccessToken config product dsn deviceSecret curtime s))
  = deviceInformation s.
Proof.
  unfold getAccessToken.
  destruct (negb _); [reflexivity|].
  destruct (pendingDeviceToRegCode s !! productDsn product dsn) as [code|].
  - destruct (pendingRegCodeToDevice s !! code) as [regInfo|]; [|reflexivity].
    destruct (RegInfo.expires regInfo >? curtime); [|reflexivity].
    now destruct (_ && _).
  - destruct (deviceInformation s !! productDsn product dsn) as [info|]; [|reflexivity].
    now destruct (_ && _).
Qed.

Lemma step_devices_kept (config : Config) (JSON_parse : string -> Lwa.parsed)
    (ev : Event) (s : State) (key : string) :
  is_Some (deviceInformation s !! key) ->
  is_Some (deviceInformation (step config JSON_parse ev s) !! key).
Proof.
  intros Hk.
  destruct ev as [product dsn rnd1 rnd2 curtime|code rnd curtime
                 |authcode stateCode curtime|code res
                 |product dsn deviceSecret curtime|key' res|curtime]; simpl.
  - unfold getRegCode.
    destruct (negb _); [exact Hk|].
    destruct (randomBytes REG_NUM_BYTES rnd1) as [buf1|]; [|exact Hk].
    destruct (randomBytes REG_NUM_BYTES rnd2) as [buf2|]; [|exact Hk].
    destruct (pendingDeviceToRegCode s !! productDsn product dsn) as [other|] eqn:E.
    + rewrite addPendingRegistration_taken by eauto. exact Hk.
    + rewrite addPendingRegistration_fresh by exact E. exact Hk.
  - unfold register.
    destruct (negb _); [exact Hk|].
    destruct (pendingRegCodeToDevice s !! code) as [prodInfo|]; [|exact Hk].
    destruct (RegInfo.expires prodInfo >? curtime).
    + unfold redirectToDeviceAuthenticate.
      destruct (randomBytes STATE_NUM_BYTES rnd); exact Hk.
    + simpl. now rewrite removePendingDevice_devices.
  - unfold retrieveTokens.
    destruct (_ || _); [|exact Hk].
    destruct (pendingRegCodeToDevice _ !! Js.property_key _) as [i|];
      [destruct (RegInfo.expires i >? curtime)|]; simpl;
      rewrite ?removePendingDevice_devices; exact Hk.
  - unfold retrieveTokens_response.
    destruct (onData res) as [[buffer|] early]; [|exact Hk].
    destruct (JSON_parse buffer) as [| |result]; [exact Hk| |];
      destruct (pendingRegCodeToDevice s !! Js.property_key _) as [i|]; simpl;
      try exact Hk.
    rewrite removePendingDevice_devices. simpl.
    destruct (decide (productDsn (RegInfo.product i) (RegInfo.dsn i) = key)) as [<-|Hne].
    + rewrite lookup_insert_eq. eauto.
    + now rewrite lookup_insert_ne.
  - now rewrite getAccessToken_devices.
  - unfold getAccessToken_response.
    destruct (onData res) as [[buffer|] early]; [|exact Hk].
    destruct (JSON_parse buffer) as [| |result]; [exact Hk| |];
      destruct (deviceInformation s !! key') as [i|]; simpl; try exact Hk.
    destruct (decide (key' = key)) as [<-|Hne].
    + rewrite lookup_insert_eq. eauto.
    + now rewrite lookup_insert_ne.
  - destruct (intervalTimer s); [|exact Hk].
    unfold checkExpire.
    now destruct (checkExpire_loop_others curtime (pendingRegistrationQueue s) s)
      as (_ & -> & _).
Qed.

(** X12.  A device record, once written, is never deleted: whatever events
    follow, the device still has a record. *)
Theorem deviceInformation_kept (config : Config) (JSON_parse : string -> Lwa.parsed)
    (evs : list Event) (s : State) (key : string) (record : DeviceInfo.t) :
  deviceInformation s !! key = Some record ->
  is_Some (deviceInformation (run config JSON_parse evs s) !! key).
Proof.
  intros Hk. assert (H : is_Some (deviceInformation s !! key)) by eauto.
  clear Hk. revert s H. unfold run.
  induction evs as [|ev evs IH]; intros s H; simpl; [exact H|].
  apply IH. now apply step_devices_kept.
Qed.

Lemma deviceInformation_kept_witness :
  is_Some (deviceInformation
             (run example_config example_parse
                [EvCheckExpire 2000000;
                 EvGetRegCode "speaker" "DSN1" entropy_a entropy_b 2000001]
                one_promoted) !! "speaker:DSN1").
Proof.
  apply (deviceInformation_kept example_config example_parse _ one_promoted "speaker:DSN1"
           {| DeviceInfo.deviceSecret := secret_b;
              DeviceInfo.tokens := {| Tokens.access := Json.Str "A";
                                      Tokens.refresh := Json.Str "R";
                                      Tokens.expires := Json.Number 3600 |} |}).
  vm_compute. reflexivity.
Defined.

(** ** The whole registration flow *)

Lemma register_redirects (regCode : string) (bytes : nat -> byte) (curtime : Z)
    (s : State) (info : RegInfo.t) :
  String.length regCode = 24%nat ->
  pendingRegCodeToDevice s !! regCode = Some info ->
  curtime < RegInfo.expires info ->
  register regCode (Entropy bytes) curtime s =
  (RegisterRedirect (toHex (map bytes (seq 0 STATE_NUM_BYTES)))
     (RegInfo.product info) (RegInfo.dsn info),
   set_pendingStateToRegCode
     (<[toHex (map bytes (seq 0 STATE_NUM_BYTES)) := regCode]> (pendingStateToRegCode s))
     s).
Proof.
  intros Hlen Hin Hexp. unfold register.
  change (REG_NUM_BYTES * 2)%nat with 24%nat.
  rewrite Hlen, Nat.eqb_refl, Hin. cbn [negb].
  now replace (RegInfo.expires info >? curtime) with true by lia.
Qed.

Lemma getAccessToken_promoted_right_secret (config : Config)
    (product dsn deviceSecret : string) (curtime : Z) (s : State)
    (record : DeviceInfo.t) :
  isValidDevice config product dsn = true ->
  pendingDeviceToRegCode s !! productDsn product dsn = None ->
  deviceInformation s !! productDsn product dsn = Some record ->
  DeviceInfo.deviceSecret record = deviceSecret ->
  String.length deviceSecret = 24%nat ->
  getAccessToken config product dsn deviceSecret curtime s =
  (AccessRequest (productDsn product dsn)
     (RefreshTokenGrant (Tokens.refresh (DeviceInfo.tokens record))
        (clientId config) (clientSecret config)), s).
Proof.
  intros Hvalid Hidx Hrec Hsecret Hlen. unfold getAccessToken.
  rewrite Hvalid, Hidx, Hrec. cbn [negb].
  change (REG_NUM_BYTES * 2)%nat with 24%nat.
  now rewrite Hlen, Hsecret, Nat.eqb_refl, String.eqb_refl.
Qed.

(** X13.  The flow end to end.  For a valid device with no registration
    pending: [getRegCode] at [t0] returns a code and a secret; [register]
    with that code before expiry redirects with a state token; with that
    token, [retrieveTokens] before expiry posts the authorization-code
    grant; a 200 token response then promotes the device, whose record
    carries the secret given out by [getRegCode] and the tokens of the
    response, while the registration is gone from the pending maps; and from
    then on [getAccessToken] with that secret posts the refresh grant with
    the stored refresh token, and with any other secret answers
    [InvalidDeviceSecret]. *)
Theorem registration_flow (config : Config) (JSON_parse : string -> Lwa.parsed)
    (product dsn authcode : string) (bytes1 bytes2 bytes3 : nat -> byte)
    (t0 t1 t2 : Z) (res : HttpResponse) (result : Lwa.result) (s : State) :
  isValidDevice config product dsn = true ->
  pendingDeviceToRegCode s !! productDsn product dsn = None ->
  t1 < t0 + 900000 ->
  t2 < t0 + 900000 ->
  token_response JSON_parse res result ->
  let regCode := toHex (map bytes1 (seq 0 REG_NUM_BYTES)) in
  let secret := toHex (map bytes2 (seq 0 REG_NUM_BYTES)) in
  let state := toHex (map bytes3 (seq 0 STATE_NUM_BYTES)) in
  let key := productDsn product dsn in
  let s1 := snd (getRegCode config product dsn (Entropy bytes1) (Entropy bytes2) t0 s) in
  let s2 := snd (register regCode (Entropy bytes3) t1 s1) in
  let s3 := snd (retrieveTokens config authcode state t2 s2) in
  let s4 := snd (retrieveTokens_response JSON_parse (Some regCode) res s3) in
  fst (getRegCode config product dsn (Entropy bytes1) (Entropy bytes2) t0 s) =
    (None, Some {| RegCodeReply.regCode := regCode;
                   RegCodeReply.deviceSecret := Some secret;
                   RegCodeReply.expires := Some (t0 + 900000) |}) /\
  fst (register regCode (Entropy bytes3) t1 s1) = RegisterRedirect state product dsn /\
  fst (retrieveTokens config authcode state t2 s2) =
    RetrieveRequest (Some regCode)
      (AuthorizationCodeGrant authcode (redirectUrl config)
         (clientId config) (clientSecret config)) /\
  fst (retrieveTokens_response JSON_parse (Some regCode) res s3) =
    {| callbacks := [(None, Some "device tokens ready")]; thrown := None |} /\
  deviceInformation s4 !! key =
    Some {| DeviceInfo.deviceSecret := secret;
            DeviceInfo.tokens :=
              {| Tokens.access := Lwa.access_token result;
                 Tokens.refresh := Lwa.refresh_token result;
                 Tokens.expires := Lwa.expires_in result |} |} /\
  pendingRegCodeToDevice s4 !! regCode = None /\
  pendingDeviceToRegCode s4 !! key = None /\
  pendingStateToRegCode s4 !! state = None /\
  (forall t3,
     getAccessToken config product dsn secret t3 s4 =
     (AccessRequest key
        (RefreshTokenGrant (Lwa.refresh_token result)
           (clientId config) (clientSecret config)), s4)) /\
  (forall t3 other,
     other <> secret ->
     getAccessToken config product dsn other t3 s4 =
     (AccessCallback (Some invalidDeviceSecretError) None, s4)).
Proof.
  intros Hvalid Hidx Ht1 Ht2 Hres regCode secret state key s1 s2 s3 s4.
  set (info := {| RegInfo.product := product; RegInfo.dsn := dsn;
                  RegInfo.deviceSecret := secret;
                  RegInfo.expires := t0 + 900000;
                  RegInfo.lastCall := None |}).
  assert (Hcode : String.length regCode = 24%nat).
  { unfold regCode. now rewrite toHex_length, length_map, length_seq. }
  assert (Hsecret : String.length secret = 24%nat).
  { unfold secret. now rewrite toHex_length, length_map, length_seq. }
  (* getRegCode *)
  assert (H1 : getRegCode config product dsn (Entropy bytes1) (Entropy bytes2) t0 s =
               ((None, Some {| RegCodeReply.regCode := regCode;
                               RegCodeReply.deviceSecret := Some secret;
                               RegCodeReply.expires := Some (t0 + 900000) |}),
                {| pendingStateToRegCode := pendingStateToRegCode s;
                   pendingRegCodeToDevice := <[regCode := info]> (pendingRegCodeToDevice s);
                   pendingDeviceToRegCode := <[key := regCode]> (pendingDeviceToRegCode s);
                   deviceInformation := deviceInformation s;
                   pendingRegistrationQueue := pendingRegistrationQueue s ++ [regCode];
                   intervalTimer := true |})).
  { unfold getRegCode. rewrite Hvalid. cbn [negb randomBytes].
    fold regCode secret.
    rewrite (addPendingRegistration_fresh _ _ _ _ _ _ Hidx).
    cbn [pendingRegCodeToDevice]. now rewrite lookup_insert_eq. }
  assert (Hin1 : pendingRegCodeToDevice s1 !! regCode = Some info).
  { unfold s1. rewrite H1. apply lookup_insert_eq. }
  (* register *)
  pose proof (register_redirects regCode bytes3 t1 s1 info Hcode Hin1 Ht1) as Hredirect.
  cbn [RegInfo.product RegInfo.dsn info] in Hredirect.
  fold state in Hredirect.
  assert (Hs2 : s2 = set_pendingStateToRegCode
                       (<[state := regCode]> (pendingStateToRegCode s1)) s1).
  { unfold s2. now rewrite Hredirect. }
  (* retrieveTokens *)
  assert (H3 : retrieveTokens config authcode state t2 s2 =
               (RetrieveRequest (Some regCode)
                  (AuthorizationCodeGrant authcode (redirectUrl config)
                     (clientId config) (clientSecret config)),
                set_pendingStateToRegCode (delete state (pendingStateToRegCode s2)) s2)).
  { unfold retrieveTokens.
    assert (Hmap : pendingStateToRegCode s2 !! state = Some regCode)
      by (rewrite Hs2; apply lookup_insert_eq).
    assert (Hin2 : pendingRegCodeToDevice
                     (set_pendingStateToRegCode
                        (delete state (pendingStateToRegCode s2)) s2)
                   !! Js.property_key (Some regCode) = Some info)
      by (rewrite Hs2; exact Hin1).
    rewrite Hmap, (truthy_string_length _ _ Hcode), orb_true_r, Hin2.
    now replace (RegInfo.expires info >? t2) with true by (simpl; lia). }
  assert (Hs3 : s3 = set_pendingStateToRegCode
                       (delete state (pendingStateToRegCode s2)) s2).
  { unfold s3. now rewrite H3. }
  (* the response *)
  assert (Hin3 : pendingRegCodeToDevice s3 !! Js.property_key (Some regCode) = Some info).
  { rewrite Hs3, Hs2. exact Hin1. }
  pose proof (retrieveTokens_response_promotes _ _ _ _ _ _ Hres Hin3) as H4.
  assert (Hs4 : s4 = promoted regCode info result s3).
  { unfold s4. now rewrite H4. }
  assert (Hrec : deviceInformation s4 !! key =
                 Some {| DeviceInfo.deviceSecret := secret;
                         DeviceInfo.tokens :=
                           {| Tokens.access := Lwa.access_token result;
                              Tokens.refresh := Lwa.refresh_token result;
                              Tokens.expires := Lwa.expires_in result |} |}).
  { rewrite Hs4. apply lookup_insert_eq. }
  assert (Hidx4 : pendingDeviceToRegCode s4 !! key = None).
  { rewrite Hs4. apply (lookup_delete_eq (M:=gmap string)). }
  split; [now rewrite H1|]. split; [now rewrite Hredirect|].
  split; [now rewrite H3|]. split; [now rewrite H4|]. split; [exact Hrec|].
  split; [rewrite Hs4; apply lookup_delete_eq|]. split; [exact Hidx4|].
  split; [rewrite Hs4, Hs3; apply (lookup_delete_eq (M:=gmap string))|].
  split.
  - intros t3.
    exact (getAccessToken_promoted_right_secret config product dsn secret t3 s4 _
             Hvalid Hidx4 Hrec eq_refl Hsecret).
  - intros t3 other Hne.
    apply (getAccessToken_promoted_wrong_secret config product dsn other t3 s4 _
             Hvalid Hidx4 Hrec).
    exact Hne.
Qed.

Lemma registration_flow_witness :
  deviceInformation one_promoted !! "speaker:DSN1" =
    Some {| DeviceInfo.deviceSecret := secret_b;
            DeviceInfo.tokens := {| Tokens.access := Json.Str "A";
                                    Tokens.refresh := Json.Str "R";
                                    Tokens.expires := Json.Number 3600 |} |}.
Proof.
  assert (Hvalid : isValidDevice example_config "speaker" "DSN1" = true)
    by (vm_compute; reflexivity).
  assert (Hidx : pendingDeviceToRegCode initial !! productDsn "speaker" "DSN1" = None)
    by (vm_compute; reflexivity).
  assert (Hres : token_response example_parse
                   {| statusCode := 200; chunks := ["{}"] |}
                   {| Lwa.access_token := Json.Str "A";
                      Lwa.refresh_token := Json.Str "R";
                      Lwa.expires_in := Json.Number 3600 |}).
  { split; [reflexivity|]. split; [discriminate|reflexivity]. }
  destruct (registration_flow example_config example_parse "speaker" "DSN1" "authcode123"
              (fun _ => "a"%byte) (fun _ => "b"%byte) (fun _ => "c"%byte)
              0 1000 2000 _ _ initial Hvalid Hidx eq_refl eq_refl Hres)
    as (_ & _ & _ & _ & Hrec & _).
  exact Hrec.
Defined.

(** ** auth.validate *)

Lemma test_lits_app (p : string) (q : list PatternChar) (url : string) :
  test (lits p ++ q) url = true <->
  exists rest, url = String.append p rest /\ test q rest = true.
Proof.
  revert url. induction p as [|c p IH]; intros url.
  - simpl. split; [intros H; now exists url|now intros (rest & -> & H)].
  - change (lits (String c p) ++ q)%list with (Lit c :: (lits p ++ q))%list.
    destruct url as [|d url]; simpl.
    + split; [discriminate|]. now intros (rest & H & _).
    + rewrite andb_true_iff, IH, Ascii.eqb_eq. split.
      * intros (-> & rest & -> & H). now exists rest.
      * intros (rest & [= -> ->] & H). split; [reflexivity|now exists rest].
Qed.

Lemma test_lits (p url : string) :
  test (lits p) url = true <-> exists rest, url = String.append p rest.
Proof.
  rewrite <- (app_nil_r (lits p)), test_lits_app. simpl.
  split; [intros (rest & H & _); now exists rest|intros (rest & H); now exists rest].
Qed.

(** X14.  [validate] lets a request through exactly when its url starts
    with [/authresponse?code=], [/device/register], [/device/regcode],
    [/device/accesstoken] or [/public], or with [/favicon], one character
    that is not a line terminator, and [ico]; every other url is refused
    with [UnauthorizedError], status 401.  In particular the four routes of
    the application pass, and [/authresponse] without a leading [code]
    parameter does not. *)
Theorem validate_iff (url : string) :
  (validate url = None <->
   (exists rest, url = String.append "/authresponse?code=" rest) \/
   (exists rest, url = String.append "/device/register" rest) \/
   (exists rest, url = String.append "/device/regcode" rest) \/
   (exists rest, url = String.append "/device/accesstoken" rest) \/
   (exists c rest, url = String.append "/favicon" (String c (String.append "ico" rest)) /\
                   isLineTerminator c = false) \/
   (exists rest, url = String.append "/public" rest)) /\
  (validate url <> None ->
   validate url = Some (error "UnauthorizedError" "no authentication" 401)) /\
  (forall product dsn regcode deviceSecret code state,
     validate ("/device/regcode/" ++ product ++ "/" ++ dsn) = None /\
     validate ("/device/register/" ++ regcode) = None /\
     validate ("/device/accesstoken/" ++ product ++ "/" ++ dsn ++ "/" ++ deviceSecret) = None /\
     validate ("/authresponse?code=" ++ code ++ "&state=" ++ state) = None /\
     validate ("/authresponse?state=" ++ state ++ "&code=" ++ code) <> None).
Proof.
  split; [|split].
  - unfold validate, checkWhiteList, whitelistUrls.
    cbn [existsb]. rewrite orb_false_r.
    destruct (test (lits "/authresponse?code=") url
              || (test (lits "/device/register") url
                  || (test (lits "/device/regcode") url
                      || (test (lits "/device/accesstoken") url
                          || (test (lits "/favicon" ++ [AnyChar] ++ lits "ico") url
                              || test (lits "/public") url))))) eqn:E.
    + split; [intros _|reflexivity].
      rewrite !orb_true_iff in E. rewrite !test_lits in E.
      destruct E as [E|[E|[E|[E|[E|E]]]]]; auto 7.
      apply test_lits_app in E as (rest & -> & E).
      destruct rest as [|c rest]; [discriminate|].
      cbn [app test] in E. apply andb_true_iff in E as [Hc E].
      apply test_lits in E as (rest' & ->).
      do 4 right. left. exists c, rest'. split; [reflexivity|].
      now apply negb_true_iff in Hc.
    + split; [discriminate|]. intros H. exfalso.
      rewrite !orb_false_iff in E.
      destruct E as (E1 & E2 & E3 & E4 & E5 & E6).
      assert (Hno : forall p, test (lits p) url = false ->
                              ~ exists rest, url = String.append p rest).
      { intros p Hp Hex. apply test_lits in Hex. congruence. }
      destruct H as [H|[H|[H|[H|[H|H]]]]];
        try (revert H; apply Hno; assumption).
      destruct H as (c & rest & -> & Hc).
      assert (test (lits "/favicon" ++ [AnyChar] ++ lits "ico")
                (String.append "/favicon" (String c (String.append "ico" rest))) = true).
      { apply test_lits_app. eexists. split; [reflexivity|].
        cbn [app test]. rewrite Hc. cbn [negb andb].
        apply test_lits. now exists rest. }
      congruence.
  - unfold validate. now destruct (checkWhiteList url).
  - intros product dsn regcode deviceSecret code state.
    split; [reflexivity|]. split; [reflexivity|]. split; [reflexivity|].
    split; [reflexivity|]. discriminate.
Qed.

(** ** GET /device/regcode *)

(** X15.  What the [/device/regcode] route sends.  Every error it reports
    is sent with status 500, whatever status the error itself carries, and
    with the code drawn for the refused request, which is stored nowhere by
    that request; this is the case of a device whose registration is
    pending.  For an invalid device, and when a random draw fails, the
    callback gets no reply and the handler ends in a [TypeError] before
    anything is sent.  For a valid device without pending registration it
    sends, with status 200, the code, the secret and the expiry time.  The
    state changes in that last case only. *)
Theorem get_regcode_responses (config : Config) (product dsn : string)
    (rnd1 rnd2 : RandomSource) (curtime : Z) (s : State) :
  let sent := fst (App.get_regcode config product dsn rnd1 rnd2 curtime s) in
  let s' := snd (App.get_regcode config product dsn rnd1 rnd2 curtime s) in
  (isValidDevice config product dsn = false \/
   rnd1 = RandomFailure \/ rnd2 = RandomFailure ->
   sent = App.Throws Js.TypeError /\ s' = s) /\
  (forall buf1 buf2,
     isValidDevice config product dsn = true ->
     randomBytes REG_NUM_BYTES rnd1 = Some buf1 ->
     randomBytes REG_NUM_BYTES rnd2 = Some buf2 ->
     (is_Some (pendingDeviceToRegCode s !! productDsn product dsn) ->
      sent = App.Response 500
               (App.RegCodeFailure "PendingRegistration"
                  "This device already has a registration pending" (toHex buf1)) /\
      s' = s) /\
     (pendingDeviceToRegCode s !! productDsn product dsn = None ->
      sent = App.Response 200
               (App.RegCodeOk
                  (Some {| RegCodeReply.regCode := toHex buf1;
                           RegCodeReply.deviceSecret := Some (toHex buf2);
                           RegCodeReply.expires := Some (curtime + 900000) |})) /\
      pendingRegCodeToDevice s' !! toHex buf1 =
        Some {| RegInfo.product := product; RegInfo.dsn := dsn;
                RegInfo.deviceSecret := toHex buf2;
                RegInfo.expires := curtime + 900000;
                RegInfo.lastCall := None |})) /\
  (forall status body,
     sent = App.Response status body ->
     (status = 200 /\ exists reply, body = App.RegCodeOk (Some reply)) \/
     (status = 500 /\ s' = s /\ exists e m c, body = App.RegCodeFailure e m c)).
Proof.
  cbv zeta. unfold App.get_regcode, getRegCode.
  destruct (isValidDevice config product dsn) eqn:Hvalid; cbn [negb].
  2: { cbn [fst snd App.regcode_callback].
       split; [easy|]. split; [discriminate|discriminate]. }
  destruct (randomBytes REG_NUM_BYTES rnd1) as [buf1|] eqn:H1.
  2: { cbn [fst snd App.regcode_callback].
       split; [easy|]. split; [discriminate|discriminate]. }
  destruct (randomBytes REG_NUM_BYTES rnd2) as [buf2|] eqn:H2.
  2: { cbn [fst snd App.regcode_callback].
       split; [easy|]. split; [discriminate|discriminate]. }
  assert (Hrnd : ~ (true = false \/ rnd1 = RandomFailure \/ rnd2 = RandomFailure)).
  { intros [H|[->| ->]]; discriminate. }
  destruct (pendingDeviceToRegCode s !! productDsn product dsn) as [other|] eqn:E.
  - rewrite addPendingRegistration_taken by eauto.
    cbn [fst snd App.regcode_callback name message error RegCodeReply.regCode].
    split; [intros H; contradiction|]. split.
    + intros b1 b2 _ [= <-] [= <-]. split; [easy|discriminate].
    + intros status body [= <- <-]. right. eauto 7.
  - rewrite addPendingRegistration_fresh by exact E.
    cbn [fst snd App.regcode_callback pendingRegCodeToDevice].
    rewrite lookup_insert_eq. cbn [fmap option_fmap option_map RegInfo.expires].
    split; [intros H; contradiction|]. split.
    + intros b1 b2 _ [= <-] [= <-]. split; [intros [? H]; discriminate|].
      intros _. split; [reflexivity|apply lookup_insert_eq].
    + intros status body [= <- <-]. left. eauto.
Qed.

Lemma get_regcode_responses_witness :
  fst (App.get_regcode example_config "unknownproduct" "x" entropy_a entropy_b 0 initial)
  = App.Throws Js.TypeError.
Proof.
  destruct (get_regcode_responses example_config "unknownproduct" "x"
              entropy_a entropy_b 0 initial) as (Hthrow & _).
  apply Hthrow. left. vm_compute. reflexivity.
Defined.

(** ** An expired registration that has not been removed yet *)

(** X16.  Polling does not clean up.  While the expired registration of a
    valid device is still stored, a poll is answered [ExpiredDeviceSecret]
    and a request for a new code is refused with [PendingRegistration],
    both leaving the state as it is; once the registration has been removed
    (by a sweep, or by [register] or [retrieveTokens] finding it expired),
    the request for a new code succeeds. *)
Theorem expired_registration_blocks (config : Config) (product dsn : string)
    (curtime : Z) (s : State) (regCode : string) (info : RegInfo.t) :
  isValidDevice config product dsn = true ->
  pendingDeviceToRegCode s !! productDsn product dsn = Some regCode ->
  pendingRegCodeToDevice s !! regCode = Some info ->
  RegInfo.product info = product ->
  RegInfo.dsn info = dsn ->
  RegInfo.expires info <= curtime ->
  (forall deviceSecret,
     getAccessToken config product dsn deviceSecret curtime s =
     (AccessCallback
        (Some (error "ExpiredDeviceSecret"
                 "Registration was not completed in time for this deviceSecret. Please restart the process."
                 401))
        None, s)) /\
  (forall bytes1 bytes2,
     getRegCode config product dsn (Entropy bytes1) (Entropy bytes2) curtime s =
     ((Some pendingRegistrationError,
       Some {| RegCodeReply.regCode := toHex (map bytes1 (seq 0 REG_NUM_BYTES));
               RegCodeReply.deviceSecret := None;
               RegCodeReply.expires := None |}), s)) /\
  (forall bytes1 bytes2,
     fst (fst (getRegCode config product dsn (Entropy bytes1) (Entropy bytes2) curtime
                 (removePendingDevice regCode s))) = None).
Proof.
  intros Hvalid Hidx Hin Hp Hd Hexp. split; [|split].
  - intros deviceSecret. unfold getAccessToken.
    rewrite Hvalid, Hidx, Hin. cbn [negb].
    now replace (RegInfo.expires info >? curtime) with false by lia.
  - intros bytes1 bytes2. unfold getRegCode. rewrite Hvalid. cbn [negb randomBytes].
    now rewrite addPendingRegistration_taken by eauto.
  - intros bytes1 bytes2. unfold getRegCode. rewrite Hvalid. cbn [negb randomBytes].
    rewrite addPendingRegistration_fresh; [reflexivity|].
    rewrite (removePendingDevice_present _ _ _ Hin), Hp, Hd.
    apply (lookup_delete_eq (M:=gmap string)).
Qed.

Lemma expired_registration_blocks_witness :
  getAccessToken example_config "speaker" "DSN1" secret_b 900000 one_pending =
  (AccessCallback
     (Some (error "ExpiredDeviceSecret"
              "Registration was not completed in time for this deviceSecret. Please restart the process."
              401))
     None, one_pending).
Proof.
  assert (Hvalid : isValidDevice example_config "speaker" "DSN1" = true)
    by (vm_compute; reflexivity).
  assert (Hidx : pendingDeviceToRegCode one_pending !! productDsn "speaker" "DSN1"
                 = Some code_a) by (vm_compute; reflexivity).
  assert (Hin : pendingRegCodeToDevice one_pending !! code_a = Some info_a)
    by (vm_compute; reflexivity).
  destruct (expired_registration_blocks example_config "speaker" "DSN1" 900000
              one_pending code_a info_a Hvalid Hidx Hin eq_refl eq_refl)
    as (Hpoll & _).
  - vm_compute. discriminate.
  - apply Hpoll.
Defined.
